(** * Purview glossary management: the catalog sync manager

    A shallow embedding of [purview_glossary/glossary.py] (class
    [PurviewGlossaryManager]) and the properties of its term-existence
    check, create path, batch upload, selector check and delete path.

    The program talks to a remote catalog over HTTP and writes to the
    process log.  Both effects are kept in an explicit world: the state of
    the remote catalog, which answers every request, and the chronological
    trace of log records and requests the program has issued.  Python
    exceptions are the [Raise] outcome of a computation. *)

From stdpp Require Import base option list gmap strings pretty.
From Stdlib Require Import ZArith Lia.

Local Open Scope string_scope.
Local Open Scope list_scope.

(** ** Python values the program handles *)

(** A dict with string keys and string values: a term record read from the
    spreadsheet, a term or a domain listed by the catalog, the request
    headers, the domain-name-to-id mapping, a request payload. *)
Abbreviation dict := (gmap string string).

(** A parsed JSON body, to the depth the program looks into it: an object
    whose member ["value"], when there is one, is an array of objects. *)
Record document := Document {
  members : dict;
  value : option (list dict)
}.

Inductive exn :=
| KeyError (key : string)
| Exception (msg : string)
| JSONDecodeError.

Inductive result (A : Type) :=
| Ok (a : A)
| Raise (e : exn).
Arguments Ok {A} a.
Arguments Raise {A} e.

(** ** HTTP and logging *)

(** [requests.get(url, headers=h)], [requests.post(url, json=p, headers=h)]
    and [requests.delete(url, headers=h)]. *)
Inductive request :=
| GET (url : string) (hdrs : dict)
| POST (url : string) (payload : dict) (hdrs : dict)
| DELETE (url : string) (hdrs : dict).

(** What the program reads of a response: [response.status_code] and
    [response.json()], which raises when the body is not JSON ([None]). *)
Record response := Response {
  status_code : Z;
  json : option document
}.

Inductive level := INFO | WARNING | ERROR.

Inductive event :=
| Log (lvl : level) (msg : string)
| Sent (req : request).

Record world (remote : Type) := World {
  catalog : remote;
  trace : list event
}.
Arguments World {remote} _ _.
Arguments catalog {remote} _.
Arguments trace {remote} _.

(** ** The monad of the program: state (the world) and exceptions *)

Definition M (remote A : Type) : Type := world remote → result A * world remote.

Definition ret {remote A} (a : A) : M remote A := λ w, (Ok a, w).

Definition raise {remote A} (e : exn) : M remote A := λ w, (Raise e, w).

Definition bind {remote A B} (m : M remote A) (k : A → M remote B) : M remote B :=
  λ w, match m w with
       | (Ok a, w') => k a w'
       | (Raise e, w') => (Raise e, w')
       end.

Notation "'let!' x ':=' m 'in' k" := (bind m (λ x, k))
  (at level 10, x name, m at level 100, k at level 200).
Notation "'run!' m 'in' k" := (bind m (λ _, k))
  (at level 10, m at level 100, k at level 200).

Definition emit {remote} (e : event) (w : world remote) : world remote :=
  World (catalog w) (trace w ++ [e]).

Definition logging_info {remote} (msg : string) : M remote unit :=
  λ w, (Ok tt, emit (Log INFO msg) w).
Definition logging_warn {remote} (msg : string) : M remote unit :=
  λ w, (Ok tt, emit (Log WARNING msg) w).
Definition logging_error {remote} (msg : string) : M remote unit :=
  λ w, (Ok tt, emit (Log ERROR msg) w).

(** [d[k]]: a missing key raises [KeyError]. *)
Definition getitem {remote} (d : dict) (k : string) : M remote string :=
  match d !! k with
  | Some v => ret v
  | None => raise (KeyError k)
  end.

(** [response.json()] *)
Definition response_json {remote} (r : response) : M remote document :=
  match json r with
  | Some b => ret b
  | None => raise JSONDecodeError
  end.

(** [body["value"]] *)
Definition getvalue {remote} (b : document) : M remote (list dict) :=
  match value b with
  | Some l => ret l
  | None => raise (KeyError "value")
  end.

(** Truthiness of an optional string argument: [None] and the empty string
    are falsy. *)
Definition truthy (o : option string) : bool :=
  match o with
  | None => false
  | Some EmptyString => false
  | Some (String _ _) => true
  end.

(** How an f-string renders an optional string argument. *)
Definition fstr (o : option string) : string :=
  match o with
  | None => "None"
  | Some s => s
  end.

(** [str(n)] for a status code. *)
Definition str_of_Z (n : Z) : string := pretty n.

(** ** The manager *)

Record PurviewGlossaryManager := Manager {
  token : string;
  tenant_id : string;
  headers : dict;
  base_url : string
}.

Definition permission_error : string := "Permission error. Check Data Steward Role.".

Section Client.
Context {remote : Type}.

(** The remote end: every request is answered with a response, and may
    change the catalog. *)
Variable server : request → remote → response * remote.

Local Abbreviation M := (M remote).

Definition send (req : request) : M response :=
  λ w, let (r, c) := server req (catalog w) in
       (Ok r, World c (trace w ++ [Sent req])).

Definition requests_get (url : string) (hdrs : dict) : M response :=
  send (GET url hdrs).
Definition requests_post (url : string) (payload hdrs : dict) : M response :=
  send (POST url payload hdrs).
Definition requests_delete (url : string) (hdrs : dict) : M response :=
  send (DELETE url hdrs).

Definition __init__ (tok tenant : string) (hdrs : dict) : M PurviewGlossaryManager :=
  let self :=
    Manager tok tenant hdrs
      ("https://" +:+ tenant +:+
       "-api.purview-service.microsoft.com/datagovernance/catalog") in
  run! logging_info ("PurviewGlossaryManager initialized for tenant_id: " +:+ tenant) in
  ret self.

Definition get_all_glossary_terms (self : PurviewGlossaryManager) : M document :=
  let url := base_url self +:+ "/terms" in
  run! logging_info "Fetching all glossary terms..." in
  let! response := requests_get url (headers self) in
  if (status_code response =? 403)%Z then
    run! logging_error "Permission error while fetching glossary terms. Check Data Steward Role." in
    raise (Exception permission_error)
  else
    run! logging_info "Successfully fetched glossary terms." in
    response_json response.

(** The loop of [get_all_domains]: [domains[item["name"]] = item['id']];
    the right-hand side is evaluated before the subscript of the target. *)
Fixpoint collect_domains (items : list dict) (domains : dict) : M dict :=
  match items with
  | [] => ret domains
  | item :: rest =>
      let! id := getitem item "id" in
      let! name := getitem item "name" in
      collect_domains rest (<[name := id]> domains)
  end.

Definition get_all_domains (self : PurviewGlossaryManager) : M dict :=
  let domains : dict := ∅ in
  let url := base_url self +:+ "/businessdomains" in
  run! logging_info "Fetching all governance domains..." in
  let! response := requests_get url (headers self) in
  if (400 <=? status_code response)%Z then
    run! logging_error "Permission error while fetching glossary terms. Check Data Steward Role." in
    raise (Exception permission_error)
  else
    let! body := response_json response in
    let! items := getvalue body in
    collect_domains items domains.

(** [[term for term in all_terms if term["name"] == term_name]] *)
Fixpoint terms_named (term_name : string) (all_terms : list dict) : M (list dict) :=
  match all_terms with
  | [] => ret []
  | term :: rest =>
      let! n := getitem term "name" in
      let! found := terms_named term_name rest in
      ret (if bool_decide (n = term_name) then term :: found else found)
  end.

(** [get_term] returns the parsed body when fetching by id and the list
    of matching terms when fetching by name. *)
Definition get_term (self : PurviewGlossaryManager)
    (term_id term_name : option string) : M (document + list dict) :=
  if truthy term_id && truthy term_name then
    raise (Exception "Provide either 'term_id' or 'term_name', not both.")
  else if truthy term_id then
    let url := base_url self +:+ "/terms/" +:+ fstr term_id in
    run! logging_info ("Fetching glossary term with ID: " +:+ fstr term_id +:+ "...") in
    let! response := requests_get url (headers self) in
    if (status_code response =? 403)%Z then
      run! logging_error "Permission error while fetching glossary term. Check Data Steward Role." in
      raise (Exception permission_error)
    else
      run! logging_info ("Successfully fetched glossary term [" +:+ fstr term_id +:+ "].") in
      let! body := response_json response in
      ret (inl body)
  else if truthy term_name then
    run! logging_info ("Fetching glossary term with name: " +:+ fstr term_name +:+ "...") in
    let! listing := get_all_glossary_terms self in
    let! all_terms := getvalue listing in
    let! found := terms_named (fstr term_name) all_terms in
    match found with
    | _ :: _ =>
        run! logging_info ("Successfully fetched glossary term [" +:+ fstr term_name +:+ "].") in
        ret (inr found)
    | [] =>
        raise (Exception ("The term [" +:+ fstr term_name +:+ "] could not be found."))
    end
  else
    raise (Exception "Either 'term_id' or 'term_name' must be provided.").

(** The loop of [__check_term_exists].  [and] is short-circuit: the
    domain of the item and [all_domains[domain]] are looked up, in this
    order, only for an item whose name matches. *)
Fixpoint __check_term_exists (name domain : string)
    (all_terms : list dict) (all_domains : dict) : M bool :=
  match all_terms with
  | [] => ret false
  | item :: rest =>
      let! item_name := getitem item "name" in
      if bool_decide (item_name = name) then
        let! item_domain := getitem item "domain" in
        let! domain_id := getitem all_domains domain in
        if bool_decide (item_domain = domain_id) then ret true
        else __check_term_exists name domain rest all_domains
      else __check_term_exists name domain rest all_domains
  end.

Definition term_payload (name description status domain_id : string) : dict :=
  {[ "name" := name; "description" := description;
     "status" := status; "domain" := domain_id ]}.

(** The branch of [__create_term] and [create_term] that posts the term. *)
Definition post_term (self : PurviewGlossaryManager)
    (name description status domain : string) (all_domains : dict)
    : M (option document) :=
  let url := base_url self +:+ "/terms" in
  let! domain_id := getitem all_domains domain in
  let payload := term_payload name description status domain_id in
  run! logging_info ("Creating glossary term: " +:+ name +:+ " under domain: " +:+ domain) in
  let! response := requests_post url payload (headers self) in
  run! (if (status_code response =? 403)%Z then
          run! logging_warn ("Permission error while creating term: [" +:+ name +:+
                             "]. Check permissions for governance domain [" +:+ domain +:+ "].") in
          raise (Exception ("Permission error. Check Data Steward Role on governance domain [" +:+
                            domain +:+ "]."))
        else
          logging_info ("Successfully created glossary term: [" +:+ name +:+ "] in the [" +:+
                        domain +:+ "] governance domain.")) in
  let! body := response_json response in
  ret (Some body).

Definition skip_message (name domain : string) : string :=
  "The term [" +:+ name +:+ "] already exists in the governance domain [" +:+ domain +:+
  "]. Hence skipping creating this term!".

Definition __create_term (self : PurviewGlossaryManager)
    (name description status domain : string)
    (all_terms : list dict) (all_domains : dict) : M (option document) :=
  let! found := __check_term_exists name domain all_terms all_domains in
  if found then
    run! logging_info (skip_message name domain) in
    ret None
  else
    post_term self name description status domain all_domains.

Definition create_term (self : PurviewGlossaryManager)
    (name description status domain : string) : M (option document) :=
  let! listing := get_all_glossary_terms self in
  let! all_terms := getvalue listing in
  let! all_domains := get_all_domains self in
  let! found := __check_term_exists name domain all_terms all_domains in
  if found then
    run! logging_info (skip_message name domain) in
    ret None
  else
    post_term self name description status domain all_domains.

(** The loop of [upload_glossary_terms] over the input records. *)
Fixpoint upload_each (self : PurviewGlossaryManager) (terms : list dict)
    (all_terms : list dict) (all_domains : dict) : M unit :=
  match terms with
  | [] => ret tt
  | term :: rest =>
      let! shown := getitem term "name" in
      run! logging_info ("Adding term: [" +:+ shown +:+ "]...") in
      let! name := getitem term "name" in
      let! description := getitem term "description" in
      let! status := getitem term "status" in
      let! domain := getitem term "domain" in
      run! __create_term self name description status domain all_terms all_domains in
      upload_each self rest all_terms all_domains
  end.

Definition upload_glossary_terms (self : PurviewGlossaryManager) (terms : list dict) : M unit :=
  let! listing := get_all_glossary_terms self in
  let! all_terms := getvalue listing in
  let! all_domains := get_all_domains self in
  upload_each self terms all_terms all_domains.

Definition delete_glossary_term (self : PurviewGlossaryManager) (term_id : string) : M Z :=
  let url := base_url self +:+ "/terms/" +:+ term_id in
  run! logging_info ("Deleting glossary term with id: " +:+ term_id) in
  let! response := requests_delete url (headers self) in
  run! (if (status_code response =? 204)%Z then
          logging_info ("Successfully deleted glossary term with id: " +:+ term_id)
        else if (status_code response =? 403)%Z then
          logging_warn ("Permission error while deleting term with id: " +:+ term_id +:+
                        ". Check Data Steward Role.")
        else ret tt) in
  ret (status_code response).

(** The loop of [delete_all_glossary_term]. *)
Fixpoint delete_each (self : PurviewGlossaryManager) (terms : list dict) : M unit :=
  match terms with
  | [] => ret tt
  | term :: rest =>
      let! id := getitem term "id" in
      let! del_response := delete_glossary_term self id in
      run! (if (del_response =? 204)%Z then
              let! name := getitem term "name" in
              logging_info ("[" +:+ name +:+ "] has been deleted.")
            else
              let! name := getitem term "name" in
              logging_warn ("[" +:+ name +:+ "] could not be deleted. Response status code: " +:+
                            str_of_Z del_response)) in
      delete_each self rest
  end.

Definition delete_all_glossary_term (self : PurviewGlossaryManager) : M unit :=
  let! all_terms := get_all_glossary_terms self in
  let! listed := getvalue all_terms in
  delete_each self listed.

End Client.

(** ** Vocabulary of the properties *)

(** A terms snapshot: every listed term has a name and a domain. *)
Definition term_snapshot (all_terms : list dict) : Prop :=
  Forall (λ item, is_Some (item !! "name") ∧ is_Some (item !! "domain")) all_terms.

(** Some listed term has this name and this domain id. *)
Definition listed (name domain_id : string) (all_terms : list dict) : Prop :=
  ∃ item, item ∈ all_terms ∧ item !! "name" = Some name ∧ item !! "domain" = Some domain_id.

(** Some listed term has this name. *)
Definition named (name : string) (all_terms : list dict) : Prop :=
  ∃ item, item ∈ all_terms ∧ item !! "name" = Some name.

(** The requests of a trace, and among them the create requests (the
    program posts to the terms collection only). *)
Definition sent_request (e : event) : option request :=
  match e with
  | Sent req => Some req
  | Log _ _ => None
  end.

Definition create_request (e : event) : option request :=
  match e with
  | Sent (POST url payload hdrs) => Some (POST url payload hdrs)
  | _ => None
  end.

Definition sent (t : list event) : list request := omap sent_request t.
Definition creates (t : list event) : list request := omap create_request t.

(** The identity of an input record within a batch: its name and its
    domain name. *)
Definition record_key (term : dict) : option string * option string :=
  (term !! "name", term !! "domain").

(** The identity of the term a create request asks for: the name and the
    domain id of its payload. *)
Definition payload_key (req : request) : option string * option string :=
  match req with
  | POST _ payload _ => (payload !! "name", payload !! "domain")
  | _ => (None, None)
  end.

(** A create request took effect: the collection holds a term with the
    name and the domain id of its payload. *)
Definition took_effect (held : list dict) (req : request) : Prop :=
  match req with
  | POST _ payload _ =>
      ∃ term, term ∈ held ∧
              term !! "name" = payload !! "name" ∧
              term !! "domain" = payload !! "domain"
  | _ => True
  end.

(** A catalog that nobody else changes: [stored] is the term collection
    the catalog holds.  Listing terms shows that collection and listing
    terms or domains does not change it, the domain listing is answered the
    same way every time, and a create request either leaves the collection
    as it is (the catalog refused it, with whatever status) or adds one term
    that carries the name and the domain id of the payload. *)
Record quiet_catalog {remote : Type} (server : request → remote → response * remote)
    (self : PurviewGlossaryManager) (stored : remote → list dict) : Prop := QuietCatalog {
  terms_shown : ∀ c body l,
    json (server (GET (base_url self +:+ "/terms") (headers self)) c).1 = Some body →
    value body = Some l → l = stored c;
  terms_kept : ∀ c,
    stored (server (GET (base_url self +:+ "/terms") (headers self)) c).2 = stored c;
  domains_fixed : ∀ c c',
    (server (GET (base_url self +:+ "/businessdomains") (headers self)) c).1 =
    (server (GET (base_url self +:+ "/businessdomains") (headers self)) c').1;
  domains_kept : ∀ c,
    stored (server (GET (base_url self +:+ "/businessdomains") (headers self)) c).2 = stored c;
  create_adds : ∀ c payload,
    stored (server (POST (base_url self +:+ "/terms") payload (headers self)) c).2 = stored c ∨
    ∃ term,
      stored (server (POST (base_url self +:+ "/terms") payload (headers self)) c).2
        = stored c ++ [term] ∧
      term !! "name" = payload !! "name" ∧
      term !! "domain" = payload !! "domain"
}.

(** ** Concrete remote ends, for running the program on examples *)

(** A remote end that answers from a script, one response per request, and
    with status 500 once the script is used up. *)
Definition scripted (req : request) (script : list response) : response * list response :=
  match script with
  | r :: rest => (r, rest)
  | [] => (Response 500 None, [])
  end.

Definition contoso_headers : dict :=
  {[ "Authorization" := "Bearer token"; "Content-Type" := "application/json" ]}.

Definition contoso : PurviewGlossaryManager :=
  Manager "token" "contoso" contoso_headers
    "https://contoso-api.purview-service.microsoft.com/datagovernance/catalog".

(** A small catalog for the manager [contoso]: it holds a term
    collection, lists it, lists a fixed set of domains, stores every term
    posted to it and drops a term on delete. *)
Definition small_catalog (domains : list dict) (req : request) (held : list dict)
    : response * list dict :=
  match req with
  | GET url _ =>
      if bool_decide (url = base_url contoso +:+ "/terms") then
        (Response 200 (Some (Document ∅ (Some held))), held)
      else if bool_decide (url = base_url contoso +:+ "/businessdomains") then
        (Response 200 (Some (Document ∅ (Some domains))), held)
      else (Response 404 None, held)
  | POST _ payload _ =>
      let term := <["id" := pretty (length held)]> payload in
      (Response 201 (Some (Document term None)), held ++ [term])
  | DELETE url _ =>
      (Response 204 None,
       filter (λ term, (base_url contoso +:+ "/terms/") +:+ default EmptyString (term !! "id") ≠ url) held)
  end.

Definition finance : list dict := [ {[ "name" := "Finance"; "id" := "dom-123" ]} ].

Definition revenue : dict :=
  {[ "name" := "Revenue"; "description" := "Money earned"; "status" := "Draft";
     "domain" := "Finance" ]}.

Definition margin : dict :=
  {[ "name" := "Margin"; "description" := "Revenue less cost"; "status" := "Published";
     "domain" := "Finance" ]}.

Definition revenue_listed : dict :=
  {[ "name" := "Revenue"; "domain" := "dom-123"; "id" := "t-1" ]}.
Definition margin_listed : dict :=
  {[ "name" := "Margin"; "domain" := "dom-123"; "id" := "t-2" ]}.
Definition cost_listed : dict :=
  {[ "name" := "Cost"; "domain" := "dom-123"; "id" := "t-3" ]}.
Definition finance_ids : dict := {[ "Finance" := "dom-123" ]}.
Definition listing (terms : list dict) : response :=
  Response 200 (Some (Document ∅ (Some terms))).

(** Worlds of the concrete runs: the small catalog holding the term
    Revenue, before anything is logged or sent; what a first upload of two
    records leaves; and what fetching the terms and then the domains leaves
    when the catalog has no domain. *)
Definition revenue_held : world (list dict) := World [revenue_listed] [].

Definition first_upload : result unit * world (list dict) :=
  upload_glossary_terms (small_catalog finance) contoso [revenue; margin] revenue_held.

(** A catalog that lists like the small one but refuses every create
    request with status 400 and a JSON error body, and stores nothing; and
    a first upload of one record on it. *)
Definition refusing_catalog (domains : list dict) (req : request) (held : list dict)
    : response * list dict :=
  match req with
  | POST _ _ _ => (Response 400 (Some (Document {[ "error" := "Bad Request" ]} None)), held)
  | _ => small_catalog domains req held
  end.

Definition refused_upload : result unit * world (list dict) :=
  upload_glossary_terms (refusing_catalog finance) contoso [margin] revenue_held.

Definition terms_fetched : world (list dict) :=
  (get_all_glossary_terms (small_catalog []) contoso revenue_held).2.

Definition domains_fetched : world (list dict) :=
  (get_all_domains (small_catalog []) contoso terms_fetched).2.

(** ** Vocabulary of the further properties *)

(** A listed domain the program can read: it has an id and a name. *)
Definition domain_item (item : dict) : Prop :=
  is_Some (item !! "id") ∧ is_Some (item !! "name").

(** An input record with the four fields the upload reads. *)
Definition term_record (term : dict) : Prop :=
  is_Some (term !! "name") ∧ is_Some (term !! "description") ∧
  is_Some (term !! "status") ∧ is_Some (term !! "domain").

(** The create request the upload sends for a record, given the domains
    mapping. *)
Definition create_for (self : PurviewGlossaryManager) (all_domains : dict) (term : dict)
    : option request :=
  name ← term !! "name";
  description ← term !! "description";
  status ← term !! "status";
  domain ← term !! "domain";
  id ← all_domains !! domain;
  Some (POST (base_url self +:+ "/terms")
             (term_payload name description status id) (headers self)).

(** Whether a term of this name is listed under this domain id. *)
Definition is_listed (name id : string) (all_terms : list dict) : bool :=
  bool_decide (Exists (λ item, item !! "name" = Some name ∧ item !! "domain" = Some id) all_terms).

(** Whether the record's name is listed under the id its domain resolves
    to; a record without name or domain, or with a domain that does not
    resolve, is not. *)
Definition already_listed (all_terms : list dict) (all_domains : dict) (term : dict) : bool :=
  match term !! "name", term !! "domain" with
  | Some name, Some domain =>
      match all_domains !! domain with
      | Some id => is_listed name id all_terms
      | None => false
      end
  | _, _ => false
  end.

(** The requests a batch upload may send. *)
Definition upload_request (self : PurviewGlossaryManager) (req : request) : Prop :=
  req = GET (base_url self +:+ "/terms") (headers self) ∨
  req = GET (base_url self +:+ "/businessdomains") (headers self) ∨
  ∃ payload, req = POST (base_url self +:+ "/terms") payload (headers self).

(** The requests a delete-all may send. *)
Definition delete_all_request (self : PurviewGlossaryManager) (req : request) : Prop :=
  req = GET (base_url self +:+ "/terms") (headers self) ∨
  ∃ id, req = DELETE (base_url self +:+ "/terms/" +:+ id) (headers self).

(** A computation that, from any world, only adds to the trace, and sends
    only requests that are allowed. *)
Definition sends_only {remote A : Type} (allowed : request → Prop) (m : M remote A) : Prop :=
  ∀ w, ∃ evs, trace (m w).2 = trace w ++ evs ∧ Forall allowed (sent evs).

(** The URL and the headers of a request. *)
Definition request_url (req : request) : string :=
  match req with
  | GET url _ | POST url _ _ | DELETE url _ => url
  end.

Definition request_headers (req : request) : dict :=
  match req with
  | GET _ hdrs | POST _ _ hdrs | DELETE _ hdrs => hdrs
  end.

(** Further worlds and data of the concrete runs. *)
Definition held_terms_fetched : world (list dict) :=
  (get_all_glossary_terms (small_catalog finance) contoso revenue_held).2.

Definition held_domains_fetched : world (list dict) :=
  (get_all_domains (small_catalog finance) contoso held_terms_fetched).2.

Definition finance_twice : list dict :=
  [ {[ "name" := "Finance"; "id" := "dom-1" ]}; {[ "name" := "Finance"; "id" := "dom-123" ]} ].

Definition nameless : dict := {[ "id" := "t-9" ]}.

Definition idless : dict := {[ "name" := "HR" ]}.

Definition two_names : dict := {[ "Finance" := "dom-123"; "Treasury" := "dom-123" ]}.


(** ** The term-existence check *)

Section Check.
Context {remote : Type}.
Implicit Types (w : world remote) (all_terms : list dict) (all_domains : dict).

Lemma listed_nil name id : ¬ listed name id [].
Proof. intros (item & Hin & _). by apply elem_of_nil in Hin. Qed.

Lemma listed_cons name id item all_terms :
  listed name id (item :: all_terms) ↔
  (item !! "name" = Some name ∧ item !! "domain" = Some id) ∨ listed name id all_terms.
Proof.
  unfold listed. split.
  - intros (x & Hin & Hn & Hd). apply elem_of_cons in Hin as [-> | Hin]; eauto.
  - intros [[Hn Hd] | (x & Hin & Hn & Hd)].
    + exists item. split; [apply elem_of_cons; by left | done].
    + exists x. split; [apply elem_of_cons; by right | done].
Qed.

Lemma named_cons name item all_terms :
  named name (item :: all_terms) ↔ item !! "name" = Some name ∨ named name all_terms.
Proof.
  unfold named. split.
  - intros (x & Hin & Hn). apply elem_of_cons in Hin as [-> | Hin]; eauto.
  - intros [Hn | (x & Hin & Hn)].
    + exists item. split; [apply elem_of_cons; by left | done].
    + exists x. split; [apply elem_of_cons; by right | done].
Qed.

(** The check leaves the world as it found it, and its outcome does not
    depend on the world. *)
Lemma check_term_exists_pure name domain all_terms all_domains :
  ∃ r : result bool, ∀ w,
    __check_term_exists name domain all_terms all_domains w = (r, w).
Proof.
  induction all_terms as [|item rest [r IH]]; simpl.
  - by exists (Ok false).
  - unfold bind, getitem.
    destruct (item !! "name") as [item_name|]; [|by exists (Raise (KeyError "name"))].
    simpl. case_bool_decide; [|by exists r].
    destruct (item !! "domain") as [item_domain|]; [|by exists (Raise (KeyError "domain"))].
    simpl. destruct (all_domains !! domain) as [id|]; [|by exists (Raise (KeyError domain))].
    simpl. case_bool_decide; [by exists (Ok true) | by exists r].
Qed.

(** With the domain name in the mapping, the check on a terms snapshot
    returns, and returns true exactly for a listed name and domain id. *)
Lemma check_resolved name domain id all_terms all_domains w :
  term_snapshot all_terms →
  all_domains !! domain = Some id →
  ∃ b : bool,
    __check_term_exists name domain all_terms all_domains w = (Ok b, w) ∧
    (b = true ↔ listed name id all_terms).
Proof.
  intros Hsnap Hdom. induction Hsnap as [|item rest [[n Hn] [d Hd]] _ (b & IH & Hb)].
  - exists false. split; [done|]. split; [done|]. intros H. by apply listed_nil in H.
  - simpl. unfold bind, getitem. rewrite Hn. simpl.
    case_bool_decide as Hname.
    + rewrite Hd, Hdom. simpl. case_bool_decide as Hid.
      * exists true. split; [done|]. split; [|done]. intros _.
        apply listed_cons. left. by subst.
      * exists b. split; [done|]. rewrite Hb, listed_cons. split; [by right|].
        intros [[_ Heq] | H]; [congruence | done].
    + exists b. split; [done|]. rewrite Hb, listed_cons. split; [by right|].
      intros [[Heq _] | H]; [congruence | done].
Qed.

(** C1: on a terms snapshot, with the domain name in the mapping, the
    check returns true if and only if some listed term has the name and the
    id the mapping gives the domain: true for a pair that is listed, false
    for one that is not.  It leaves the world untouched: nothing is sent to
    the catalog and nothing is logged. *)
Theorem check_term_exists_iff name domain id all_terms all_domains w :
  term_snapshot all_terms →
  all_domains !! domain = Some id →
  ∃ b : bool,
    __check_term_exists name domain all_terms all_domains w = (Ok b, w) ∧
    (b = true ↔ listed name id all_terms) ∧
    (listed name id all_terms →
       __check_term_exists name domain all_terms all_domains w = (Ok true, w)) ∧
    (¬ listed name id all_terms →
       __check_term_exists name domain all_terms all_domains w = (Ok false, w)).
Proof.
  intros Hsnap Hdom.
  destruct (check_resolved name domain id all_terms all_domains w Hsnap Hdom)
    as (b & Hrun & Hb).
  exists b. split; [done|]. split; [done|]. rewrite Hrun. split.
  - intros Hl. apply Hb in Hl. by subst.
  - intros Hl. destruct b; [|done]. exfalso. by apply Hl, Hb.
Qed.

(** C4, as the code has it: with the domain name missing from the
    mapping, the check on a terms snapshot raises the lookup error exactly
    when some listed term has the name; otherwise, so also on the empty
    snapshot, it returns false. *)
Theorem check_term_exists_unresolved name domain all_terms all_domains w :
  term_snapshot all_terms →
  all_domains !! domain = None →
  (named name all_terms →
     __check_term_exists name domain all_terms all_domains w = (Raise (KeyError domain), w)) ∧
  (¬ named name all_terms →
     __check_term_exists name domain all_terms all_domains w = (Ok false, w)).
Proof.
  intros Hsnap Hdom. induction Hsnap as [|item rest [[n Hn] [d Hd]] _ [IHy IHn]].
  - split; [|done]. intros (x & Hin & _). by apply elem_of_nil in Hin.
  - simpl. unfold bind, getitem. rewrite Hn. simpl.
    case_bool_decide as Hname.
    + rewrite Hd, Hdom. simpl. split; [done|].
      intros Hno. exfalso. apply Hno, named_cons. left. by subst.
    + split.
      * intros [Heq | H]%named_cons; [congruence | by apply IHy].
      * intros Hno. apply IHn. intros H. apply Hno, named_cons. by right.
Qed.

(** Without the domain name in the mapping the check never returns true,
    and fails with a lookup error only. *)
Lemma check_unresolved_outcome name domain all_terms all_domains w :
  all_domains !! domain = None →
  __check_term_exists name domain all_terms all_domains w = (Ok false, w) ∨
  ∃ k, __check_term_exists name domain all_terms all_domains w = (Raise (KeyError k), w).
Proof.
  intros Hdom. induction all_terms as [|item rest IH]; simpl; [by left|].
  unfold bind, getitem. destruct (item !! "name") as [n|]; simpl; [|by eauto].
  case_bool_decide; [|done].
  destruct (item !! "domain") as [d|]; simpl; [|by eauto].
  rewrite Hdom. simpl. eauto.
Qed.

(** On a terms snapshot the only lookup that can fail is the one of the
    domain name. *)
Lemma check_unresolved_key name domain all_terms all_domains w k :
  term_snapshot all_terms →
  all_domains !! domain = None →
  __check_term_exists name domain all_terms all_domains w = (Raise (KeyError k), w) →
  k = domain.
Proof.
  intros Hsnap Hdom. induction Hsnap as [|item rest [[n Hn] [d Hd]] _ IH]; simpl; [done|].
  unfold bind, getitem. rewrite Hn. simpl. case_bool_decide; [|done].
  rewrite Hd, Hdom. simpl. by intros [= ->].
Qed.

End Check.

(** ** Reading the catalog *)

Ltac run_m :=
  unfold bind, ret, raise, logging_info, logging_warn, logging_error,
    requests_get, requests_post, requests_delete, send, emit,
    response_json, getvalue; simpl.

Ltac flatten_trace := simpl; repeat (rewrite <- app_assoc; simpl).

Section Properties.
Context {remote : Type}.
Variable server : request → remote → response * remote.
Implicit Types (w : world remote) (self : PurviewGlossaryManager).

Lemma creates_app (t1 t2 : list event) : creates (t1 ++ t2) = creates t1 ++ creates t2.
Proof. apply omap_app. Qed.

Lemma sent_app (t1 t2 : list event) : sent (t1 ++ t2) = sent t1 ++ sent t2.
Proof. apply omap_app. Qed.

Lemma get_all_glossary_terms_403 self w r c :
  server (GET (base_url self +:+ "/terms") (headers self)) (catalog w) = (r, c) →
  status_code r = 403%Z →
  get_all_glossary_terms server self w =
    (Raise (Exception permission_error),
     World c (trace w ++
       [Log INFO "Fetching all glossary terms...";
        Sent (GET (base_url self +:+ "/terms") (headers self));
        Log ERROR "Permission error while fetching glossary terms. Check Data Steward Role."])).
Proof.
  intros Hr Hs. unfold get_all_glossary_terms. run_m. rewrite Hr, Hs. simpl.
  by flatten_trace.
Qed.

Lemma get_all_glossary_terms_not_403 self w r c :
  server (GET (base_url self +:+ "/terms") (headers self)) (catalog w) = (r, c) →
  status_code r ≠ 403%Z →
  get_all_glossary_terms server self w =
    (match json r with Some body => Ok body | None => Raise JSONDecodeError end,
     World c (trace w ++
       [Log INFO "Fetching all glossary terms...";
        Sent (GET (base_url self +:+ "/terms") (headers self));
        Log INFO "Successfully fetched glossary terms."])).
Proof.
  intros Hr Hs. unfold get_all_glossary_terms. run_m. rewrite Hr.
  apply Z.eqb_neq in Hs. rewrite Hs. simpl. flatten_trace. by destruct (json r).
Qed.

(** Listing the terms sends the one GET request, whatever the outcome. *)
Lemma get_all_glossary_terms_sent self w :
  ∃ evs,
    trace (get_all_glossary_terms server self w).2 = trace w ++ evs ∧
    sent evs = [GET (base_url self +:+ "/terms") (headers self)] ∧
    catalog (get_all_glossary_terms server self w).2 =
      (server (GET (base_url self +:+ "/terms") (headers self)) (catalog w)).2.
Proof.
  destruct (server (GET (base_url self +:+ "/terms") (headers self)) (catalog w))
    as [r c] eqn:Hr.
  destruct (decide (status_code r = 403%Z)) as [Hs|Hs].
  - rewrite (get_all_glossary_terms_403 _ _ _ _ Hr Hs). simpl. eauto.
  - rewrite (get_all_glossary_terms_not_403 _ _ _ _ Hr Hs). simpl. eauto.
Qed.

(** When the listing returns, the catalog answered with a status other
    than 403 and a JSON body, which is what is returned. *)
Lemma get_all_glossary_terms_ok self w listing w1 :
  get_all_glossary_terms server self w = (Ok listing, w1) →
  json (server (GET (base_url self +:+ "/terms") (headers self)) (catalog w)).1
    = Some listing ∧
  catalog w1 = (server (GET (base_url self +:+ "/terms") (headers self)) (catalog w)).2 ∧
  trace w1 = trace w ++
    [Log INFO "Fetching all glossary terms...";
     Sent (GET (base_url self +:+ "/terms") (headers self));
     Log INFO "Successfully fetched glossary terms."].
Proof.
  destruct (server (GET (base_url self +:+ "/terms") (headers self)) (catalog w))
    as [r c] eqn:Hr.
  destruct (decide (status_code r = 403%Z)) as [Hs|Hs].
  - rewrite (get_all_glossary_terms_403 _ _ _ _ Hr Hs). intros [=].
  - rewrite (get_all_glossary_terms_not_403 _ _ _ _ Hr Hs). simpl.
    destruct (json r); intros [= <- <-]; done.
Qed.

(** C5, as the code has it: a 403 answer to the listing raises the
    permission error; any other status, the other non-success ones included,
    raises nothing on its account: success is logged and the parsed body is
    returned (only a body that is not JSON makes the call fail). *)
Theorem get_all_glossary_terms_status self w r c :
  server (GET (base_url self +:+ "/terms") (headers self)) (catalog w) = (r, c) →
  (status_code r = 403%Z →
     (get_all_glossary_terms server self w).1 = Raise (Exception permission_error)) ∧
  (status_code r ≠ 403%Z →
     ∀ body, json r = Some body →
       get_all_glossary_terms server self w =
         (Ok body,
          World c (trace w ++
            [Log INFO "Fetching all glossary terms...";
             Sent (GET (base_url self +:+ "/terms") (headers self));
             Log INFO "Successfully fetched glossary terms."]))).
Proof.
  intros Hr. split; intros Hs.
  - by rewrite (get_all_glossary_terms_403 _ _ _ _ Hr Hs).
  - intros body Hbody. rewrite (get_all_glossary_terms_not_403 _ _ _ _ Hr Hs).
    by rewrite Hbody.
Qed.

Lemma collect_domains_pure (items : list dict) (domains : dict) :
  ∃ r : result dict, ∀ w, collect_domains items domains w = (r, w).
Proof.
  revert domains. induction items as [|item rest IH]; intros domains; simpl.
  - by exists (Ok domains).
  - unfold bind, getitem.
    destruct (item !! "id") as [id|]; [|by exists (Raise (KeyError "id"))]. simpl.
    destruct (item !! "name") as [name|]; [|by exists (Raise (KeyError "name"))]. simpl.
    apply IH.
Qed.

(** The outcome of [get_all_domains] is decided by the answer to its one
    GET request, which is all it sends. *)
Lemma get_all_domains_shape self r :
  ∃ res : result dict, ∀ w c,
    server (GET (base_url self +:+ "/businessdomains") (headers self)) (catalog w) = (r, c) →
    get_all_domains server self w =
      (res,
       World c (trace w ++
         Log INFO "Fetching all governance domains..." ::
         Sent (GET (base_url self +:+ "/businessdomains") (headers self)) ::
         if (400 <=? status_code r)%Z
         then [Log ERROR "Permission error while fetching glossary terms. Check Data Steward Role."]
         else [])).
Proof.
  unfold get_all_domains. run_m.
  destruct (400 <=? status_code r)%Z eqn:Hs.
  - exists (Raise (Exception permission_error)). intros w c ->. rewrite Hs. simpl.
    by flatten_trace.
  - destruct (json r) as [body|] eqn:Hj.
    + destruct (value body) as [items|] eqn:Hv.
      * destruct (collect_domains_pure items ∅) as [res Hres].
        exists res. intros w c ->. rewrite Hs, Hj. simpl. rewrite Hv. run_m. rewrite Hres.
        by flatten_trace.
      * exists (Raise (KeyError "value")). intros w c ->. rewrite Hs, Hj. simpl.
        rewrite Hv. run_m. by flatten_trace.
    + exists (Raise JSONDecodeError). intros w c ->. rewrite Hs, Hj. simpl.
      by flatten_trace.
Qed.

Lemma get_all_domains_403 self w r c :
  server (GET (base_url self +:+ "/businessdomains") (headers self)) (catalog w) = (r, c) →
  (400 ≤ status_code r)%Z →
  get_all_domains server self w =
    (Raise (Exception permission_error),
     World c (trace w ++
       [Log INFO "Fetching all governance domains...";
        Sent (GET (base_url self +:+ "/businessdomains") (headers self));
        Log ERROR "Permission error while fetching glossary terms. Check Data Steward Role."])).
Proof.
  intros Hr Hs. unfold get_all_domains. run_m. rewrite Hr.
  apply Z.leb_le in Hs. rewrite Hs. simpl. by flatten_trace.
Qed.

(** Fetching the domains creates nothing. *)
Lemma get_all_domains_creates self w res w' :
  get_all_domains server self w = (res, w') →
  creates (trace w') = creates (trace w) ∧
  catalog w' = (server (GET (base_url self +:+ "/businessdomains") (headers self)) (catalog w)).2.
Proof.
  destruct (server (GET (base_url self +:+ "/businessdomains") (headers self)) (catalog w))
    as [r c] eqn:Hr.
  destruct (get_all_domains_shape self r) as [res' Hshape].
  rewrite (Hshape _ _ Hr). intros [= <- <-]. simpl. rewrite creates_app.
  split; [|done]. destruct (400 <=? status_code r)%Z; simpl; by rewrite app_nil_r.
Qed.

Lemma get_all_glossary_terms_creates self w res w' :
  get_all_glossary_terms server self w = (res, w') →
  creates (trace w') = creates (trace w).
Proof.
  destruct (server (GET (base_url self +:+ "/terms") (headers self)) (catalog w))
    as [r c] eqn:Hr.
  destruct (decide (status_code r = 403%Z)) as [Hs|Hs].
  - rewrite (get_all_glossary_terms_403 _ _ _ _ Hr Hs). intros [= <- <-]. simpl.
    rewrite creates_app. simpl. by rewrite app_nil_r.
  - rewrite (get_all_glossary_terms_not_403 _ _ _ _ Hr Hs). intros [= <- <-]. simpl.
    rewrite creates_app. simpl. by rewrite app_nil_r.
Qed.

(** ** Fetching one term: the selector check *)

Lemma terms_named_pure (term_name : string) (all_terms : list dict) :
  ∃ r : result (list dict), ∀ w, terms_named term_name all_terms w = (r, w).
Proof.
  induction all_terms as [|term rest [r IH]]; simpl.
  - by exists (Ok []).
  - unfold bind, getitem.
    destruct (term !! "name") as [n|]; [|by exists (Raise (KeyError "name"))]. simpl.
    destruct r as [found|e].
    + exists (Ok (if bool_decide (n = term_name) then term :: found else found)).
      intros w. by rewrite IH.
    + exists (Raise e). intros w. by rewrite IH.
Qed.

(** The list comprehension fails only on a term without a name. *)
Lemma terms_named_raises (term_name : string) (all_terms : list dict) w e w' :
  terms_named term_name all_terms w = (Raise e, w') → ∃ k, e = KeyError k.
Proof.
  revert w w'. induction all_terms as [|term rest IH]; intros w w'; simpl; [done|].
  unfold bind, getitem. destruct (term !! "name") as [n|]; simpl.
  - destruct (terms_named term_name rest w) as [[found|e'] w''] eqn:Hrest; [done|].
    intros [= <- <-]. eauto.
  - intros [= <- <-]. eauto.
Qed.

(** C7, as the code has it: when both selectors are truthy (passed and not
    empty), and when both are falsy (left out or empty), [get_term] raises the
    usage error and leaves the world untouched: nothing is sent or logged. *)
Theorem get_term_usage_error self term_id term_name w :
  (truthy term_id = true → truthy term_name = true →
     get_term server self term_id term_name w =
       (Raise (Exception "Provide either 'term_id' or 'term_name', not both."), w)) ∧
  (truthy term_id = false → truthy term_name = false →
     get_term server self term_id term_name w =
       (Raise (Exception "Either 'term_id' or 'term_name' must be provided."), w)).
Proof.
  unfold get_term. split; intros -> ->; done.
Qed.

(** C10: the selector check tests truthiness.  With an empty [term_id] and
    a name that is not empty the call is not rejected: the lookup by name
    runs, which logs and sends the listing request.  With both selectors
    empty the call raises the error for a missing selector. *)
Theorem get_term_truthiness self name w :
  (name ≠ EmptyString →
     ∃ res c evs,
       get_term server self (Some EmptyString) (Some name) w =
         (res,
          World c (trace w ++
            Log INFO ("Fetching glossary term with name: " +:+ name +:+ "...") ::
            Log INFO "Fetching all glossary terms..." ::
            Sent (GET (base_url self +:+ "/terms") (headers self)) :: evs)) ∧
       res ≠ Raise (Exception "Provide either 'term_id' or 'term_name', not both.")) ∧
  get_term server self (Some EmptyString) (Some EmptyString) w =
    (Raise (Exception "Either 'term_id' or 'term_name' must be provided."), w).
Proof.
  split; [|done]. intros Hname.
  destruct name as [|a name]; [done|]. unfold get_term. cbn [truthy andb fstr].
  unfold bind at 1. unfold logging_info at 1. unfold bind at 1.
  set (w0 := emit _ w).
  destruct (server (GET (base_url self +:+ "/terms") (headers self)) (catalog w0))
    as [r c] eqn:Hr.
  destruct (decide (status_code r = 403%Z)) as [Hs|Hs].
  - rewrite (get_all_glossary_terms_403 _ _ _ _ Hr Hs). subst w0. simpl.
    eexists _, c, _. split; [flatten_trace; reflexivity | discriminate].
  - rewrite (get_all_glossary_terms_not_403 _ _ _ _ Hr Hs). subst w0. simpl.
    destruct (json r) as [body|]; [|eexists _, c, _; split; [flatten_trace; reflexivity | discriminate]].
    run_m. destruct (value body) as [all_terms|];
      [|eexists _, c, _; split; [flatten_trace; reflexivity | discriminate]].
    destruct (terms_named_pure (String a name) all_terms) as [found Hfound].
    run_m. rewrite Hfound. destruct found as [[|term found]|e].
    + eexists _, c, _; split; [flatten_trace; reflexivity | simpl; discriminate].
    + eexists _, c, _; split; [flatten_trace; reflexivity | discriminate].
    + eexists _, c, _; split; [flatten_trace; reflexivity|]. intros [= ->].
      destruct (terms_named_raises _ _ _ _ _ (Hfound w)) as [k [=]].
Qed.

(** ** The create path *)

Lemma term_payload_fields (name description status id : string) :
  term_payload name description status id !! "name" = Some name ∧
  term_payload name description status id !! "description" = Some description ∧
  term_payload name description status id !! "status" = Some status ∧
  term_payload name description status id !! "domain" = Some id.
Proof. unfold term_payload. repeat split; by simplify_map_eq. Qed.

(** Posting a term whose domain resolves: one request, then the status
    decides between the permission error and the parsed body. *)
Lemma post_term_resolved self name description status domain id all_domains w r c :
  all_domains !! domain = Some id →
  server (POST (base_url self +:+ "/terms")
               (term_payload name description status id) (headers self)) (catalog w) = (r, c) →
  post_term server self name description status domain all_domains w =
    (if (status_code r =? 403)%Z
     then Raise (Exception ("Permission error. Check Data Steward Role on governance domain [" +:+
                            domain +:+ "]."))
     else match json r with Some body => Ok (Some body) | None => Raise JSONDecodeError end,
     World c (trace w ++
       [Log INFO ("Creating glossary term: " +:+ name +:+ " under domain: " +:+ domain);
        Sent (POST (base_url self +:+ "/terms")
                   (term_payload name description status id) (headers self));
        if (status_code r =? 403)%Z
        then Log WARNING ("Permission error while creating term: [" +:+ name +:+
                          "]. Check permissions for governance domain [" +:+ domain +:+ "].")
        else Log INFO ("Successfully created glossary term: [" +:+ name +:+ "] in the [" +:+
                       domain +:+ "] governance domain.")])).
Proof.
  intros Hdom Hr. unfold post_term, getitem. rewrite Hdom. run_m. rewrite Hr.
  destruct (status_code r =? 403)%Z; run_m; [by flatten_trace|].
  destruct (json r); run_m; by flatten_trace.
Qed.

Lemma post_term_unresolved self name description status domain all_domains w :
  all_domains !! domain = None →
  post_term server self name description status domain all_domains w =
    (Raise (KeyError domain), w).
Proof. intros Hdom. unfold post_term, getitem. rewrite Hdom. by run_m. Qed.

Lemma create_term_skips self name description status domain id all_terms all_domains w :
  term_snapshot all_terms →
  all_domains !! domain = Some id →
  listed name id all_terms →
  __create_term server self name description status domain all_terms all_domains w =
    (Ok None, emit (Log INFO (skip_message name domain)) w).
Proof.
  intros Hsnap Hdom Hl. unfold __create_term, bind.
  destruct (check_resolved name domain id all_terms all_domains w Hsnap Hdom)
    as (b & -> & Hb).
  apply Hb in Hl as ->. by run_m.
Qed.

Lemma create_term_posts self name description status domain id all_terms all_domains w :
  term_snapshot all_terms →
  all_domains !! domain = Some id →
  ¬ listed name id all_terms →
  __create_term server self name description status domain all_terms all_domains w =
    post_term server self name description status domain all_domains w.
Proof.
  intros Hsnap Hdom Hl. unfold __create_term, bind.
  destruct (check_resolved name domain id all_terms all_domains w Hsnap Hdom)
    as (b & -> & Hb).
  destruct b; [|done]. exfalso. by apply Hl, Hb.
Qed.

(** C3: with the domain resolved on a terms snapshot, [__create_term]
    sends nothing and returns (with [None]) when a term with the name and the
    resolved domain id is listed; otherwise it sends exactly one request, the
    create request, whose payload carries the name, the description and the
    status of the record and, as its domain, the resolved id. *)
Theorem create_term_only_if_absent self name description status domain id
    all_terms all_domains w :
  term_snapshot all_terms →
  all_domains !! domain = Some id →
  (listed name id all_terms →
     ∃ w', __create_term server self name description status domain all_terms all_domains w
             = (Ok None, w') ∧
           sent (trace w') = sent (trace w) ∧ catalog w' = catalog w) ∧
  (¬ listed name id all_terms →
     ∃ res w' payload,
       __create_term server self name description status domain all_terms all_domains w
         = (res, w') ∧
       sent (trace w') = sent (trace w) ++ [POST (base_url self +:+ "/terms") payload (headers self)] ∧
       creates (trace w') =
         creates (trace w) ++ [POST (base_url self +:+ "/terms") payload (headers self)] ∧
       payload !! "name" = Some name ∧
       payload !! "description" = Some description ∧
       payload !! "status" = Some status ∧
       payload !! "domain" = Some id).
Proof.
  intros Hsnap Hdom. split; intros Hl.
  - rewrite (create_term_skips _ _ _ _ _ id) by done. eexists. split; [done|].
    simpl. rewrite sent_app. simpl. by rewrite app_nil_r.
  - rewrite (create_term_posts _ _ _ _ _ id) by done.
    destruct (server (POST (base_url self +:+ "/terms")
                (term_payload name description status id) (headers self)) (catalog w))
      as [r c] eqn:Hr.
    rewrite (post_term_resolved _ _ _ _ _ id _ _ r c) by done.
    eexists _, _, (term_payload name description status id). split; [done|].
    simpl. rewrite sent_app, creates_app. simpl.
    pose proof (term_payload_fields name description status id) as (? & ? & ? & ?).
    by destruct (status_code r =? 403)%Z.
Qed.

(** Without the domain name in the mapping, [__create_term] raises a
    lookup error and leaves the world untouched. *)
Lemma create_term_unresolved self name description status domain all_terms all_domains w :
  all_domains !! domain = None →
  ∃ k, __create_term server self name description status domain all_terms all_domains w
         = (Raise (KeyError k), w) ∧
       (term_snapshot all_terms → k = domain).
Proof.
  intros Hdom. unfold __create_term, bind.
  destruct (check_unresolved_outcome name domain all_terms all_domains w Hdom)
    as [Hno | [k Hk]].
  - exists domain. rewrite Hno. by rewrite post_term_unresolved.
  - exists k. split; [by rewrite Hk|]. intros Hsnap.
    by apply (check_unresolved_key name domain all_terms all_domains w k).
Qed.

(** C6: a record whose domain name is missing from the domains mapping
    makes the create path raise the lookup error for the domain without
    sending a create request: [__create_term] leaves the world untouched, and
    [create_term], once it has fetched the terms and the mapping, stops where
    the fetching left it. *)
Theorem create_unresolved_domain self name description status domain all_terms all_domains w :
  all_domains !! domain = None →
  (∃ k, __create_term server self name description status domain all_terms all_domains w
          = (Raise (KeyError k), w) ∧
        (term_snapshot all_terms → k = domain)) ∧
  (∀ listing w1 w2,
     get_all_glossary_terms server self w = (Ok listing, w1) →
     value listing = Some all_terms →
     get_all_domains server self w1 = (Ok all_domains, w2) →
     ∃ k, create_term server self name description status domain w = (Raise (KeyError k), w2) ∧
          (term_snapshot all_terms → k = domain) ∧
          creates (trace w2) = creates (trace w)).
Proof.
  intros Hdom. split; [by apply create_term_unresolved|].
  intros listing w1 w2 Hlist Hval Hdoms.
  destruct (create_term_unresolved self name description status domain
              all_terms all_domains w2 Hdom) as (k & Hk & Hsnap).
  exists k. split; [|split; [done|]].
  - unfold create_term. unfold bind at 1. rewrite Hlist.
    unfold bind at 1. unfold getvalue. rewrite Hval. unfold ret at 1.
    unfold bind at 1. rewrite Hdoms. exact Hk.
  - apply get_all_domains_creates in Hdoms as [-> _].
    by apply get_all_glossary_terms_creates in Hlist.
Qed.

(** ** Batch upload: a forbidden listing *)

(** C8: when the catalog answers the initial listing of the terms with
    403, or, the terms once listed, the listing of the domains with 403,
    [upload_glossary_terms] raises the permission error, and what it has
    sent by then are the listing requests only: no create request. *)
Theorem upload_aborts_when_forbidden self terms w :
  (∀ r c,
     server (GET (base_url self +:+ "/terms") (headers self)) (catalog w) = (r, c) →
     status_code r = 403%Z →
     ∃ w', upload_glossary_terms server self terms w = (Raise (Exception permission_error), w') ∧
           creates (trace w') = creates (trace w) ∧
           sent (trace w') = sent (trace w) ++ [GET (base_url self +:+ "/terms") (headers self)]) ∧
  (∀ listing w1 all_terms r c,
     get_all_glossary_terms server self w = (Ok listing, w1) →
     value listing = Some all_terms →
     server (GET (base_url self +:+ "/businessdomains") (headers self)) (catalog w1) = (r, c) →
     status_code r = 403%Z →
     ∃ w', upload_glossary_terms server self terms w = (Raise (Exception permission_error), w') ∧
           creates (trace w') = creates (trace w) ∧
           sent (trace w') = sent (trace w) ++
             [GET (base_url self +:+ "/terms") (headers self);
              GET (base_url self +:+ "/businessdomains") (headers self)]).
Proof.
  split.
  - intros r c Hr Hs. unfold upload_glossary_terms, bind.
    rewrite (get_all_glossary_terms_403 _ _ _ _ Hr Hs). eexists. split; [done|].
    simpl. rewrite creates_app, sent_app. simpl. by rewrite app_nil_r.
  - intros listing w1 all_terms r c Hlist Hval Hr Hs.
    unfold upload_glossary_terms. unfold bind at 1. rewrite Hlist.
    unfold bind at 1. unfold getvalue. rewrite Hval. unfold ret at 1.
    unfold bind. rewrite (get_all_domains_403 _ _ _ _ Hr) by lia.
    eexists. split; [done|].
    apply get_all_glossary_terms_ok in Hlist as (_ & _ & Ht).
    simpl. rewrite Ht. rewrite !creates_app, !sent_app. simpl.
    rewrite !app_nil_r. by rewrite <- app_assoc.
Qed.

(** ** Deleting terms *)

Lemma delete_glossary_term_run self term_id w r c :
  server (DELETE (base_url self +:+ "/terms/" +:+ term_id) (headers self)) (catalog w) = (r, c) →
  delete_glossary_term server self term_id w =
    (Ok (status_code r),
     World c (trace w ++
       Log INFO ("Deleting glossary term with id: " +:+ term_id) ::
       Sent (DELETE (base_url self +:+ "/terms/" +:+ term_id) (headers self)) ::
       if (status_code r =? 204)%Z
       then [Log INFO ("Successfully deleted glossary term with id: " +:+ term_id)]
       else if (status_code r =? 403)%Z
       then [Log WARNING ("Permission error while deleting term with id: " +:+ term_id +:+
                          ". Check Data Steward Role.")]
       else [])).
Proof.
  intros Hr. unfold delete_glossary_term. run_m. rewrite Hr.
  destruct (status_code r =? 204)%Z; run_m; [by flatten_trace|].
  destruct (status_code r =? 403)%Z; run_m; by flatten_trace.
Qed.

Lemma delete_glossary_term_sent self term_id w :
  ∃ status w',
    delete_glossary_term server self term_id w = (Ok status, w') ∧
    sent (trace w') =
      sent (trace w) ++ [DELETE (base_url self +:+ "/terms/" +:+ term_id) (headers self)].
Proof.
  destruct (server (DELETE (base_url self +:+ "/terms/" +:+ term_id) (headers self)) (catalog w))
    as [r c] eqn:Hr.
  rewrite (delete_glossary_term_run _ _ _ _ _ Hr). eexists _, _. split; [done|].
  simpl. rewrite sent_app. simpl.
  by destruct (status_code r =? 204)%Z, (status_code r =? 403)%Z.
Qed.

(** The loop deletes every term in turn, whatever the statuses. *)
Lemma delete_each_sent self (terms : list dict) (ids : list string) w :
  Forall2 (λ term id, term !! "id" = Some id) terms ids →
  Forall (λ term, is_Some (term !! "name")) terms →
  ∃ w', delete_each server self terms w = (Ok tt, w') ∧
        sent (trace w') = sent (trace w) ++
          ((λ id, DELETE (base_url self +:+ "/terms/" +:+ id) (headers self)) <$> ids).
Proof.
  intros Hids. revert w. induction Hids as [|term id terms ids Hid _ IH]; intros w Hnames.
  - exists w. simpl. by rewrite app_nil_r.
  - apply Forall_cons in Hnames as [[name Hname] Hnames]. simpl.
    unfold bind at 1. unfold getitem at 1. rewrite Hid. unfold ret at 1.
    destruct (delete_glossary_term_sent self id w) as (status & w1 & Hdel & Hsent).
    unfold bind at 1. rewrite Hdel.
    unfold bind at 1.
    assert (∃ lg,
      (if (status =? 204)%Z
       then let! name := getitem term "name" in
            logging_info ("[" +:+ name +:+ "] has been deleted.")
       else let! name := getitem term "name" in
            logging_warn ("[" +:+ name +:+ "] could not be deleted. Response status code: " +:+
                          str_of_Z status)) w1 = (Ok tt, emit (Log lg.1 lg.2) w1)) as [lg ->].
    { destruct (status =? 204)%Z; unfold bind, getitem; rewrite Hname; run_m.
      - by eexists (INFO, _).
      - by eexists (WARNING, _). }
    destruct (IH (emit (Log lg.1 lg.2) w1) Hnames) as (w' & -> & Hsent').
    exists w'. split; [done|]. rewrite Hsent'. simpl. rewrite sent_app. simpl.
    rewrite app_nil_r, Hsent. by rewrite <- app_assoc.
Qed.

(** C9: [delete_glossary_term] returns the status code of whatever the
    catalog answers, a 403 included, and never raises; so
    [delete_all_glossary_term], once the terms are listed, sends a delete
    request for every listed term, in order, and returns. *)
Theorem delete_returns_status_and_continues self w :
  (∀ term_id r c,
     server (DELETE (base_url self +:+ "/terms/" +:+ term_id) (headers self)) (catalog w) = (r, c) →
     ∃ w', delete_glossary_term server self term_id w = (Ok (status_code r), w') ∧
           catalog w' = c) ∧
  (∀ listing w1 terms ids,
     get_all_glossary_terms server self w = (Ok listing, w1) →
     value listing = Some terms →
     Forall2 (λ term id, term !! "id" = Some id) terms ids →
     Forall (λ term, is_Some (term !! "name")) terms →
     ∃ w2, delete_all_glossary_term server self w = (Ok tt, w2) ∧
           sent (trace w2) = sent (trace w1) ++
             ((λ id, DELETE (base_url self +:+ "/terms/" +:+ id) (headers self)) <$> ids)).
Proof.
  split.
  - intros term_id r c Hr. rewrite (delete_glossary_term_run _ _ _ _ _ Hr). by eexists.
  - intros listing w1 terms ids Hlist Hval Hids Hnames.
    unfold delete_all_glossary_term. unfold bind at 1. rewrite Hlist.
    unfold bind at 1. unfold getvalue. rewrite Hval. unfold ret at 1.
    by apply delete_each_sent.
Qed.

(** ** Batch upload: running it twice *)

Lemma bind_ok_inv {A B} (m : M remote A) (k : A → M remote B) w b w' :
  bind m k w = (Ok b, w') → ∃ a w1, m w = (Ok a, w1) ∧ k a w1 = (Ok b, w').
Proof. unfold bind. destruct (m w) as [[a|e] w1]; [eauto | done]. Qed.

Lemma getitem_ok_inv (d : dict) (k : string) w v w' :
  getitem d k w = (Ok v, w') → d !! k = Some v ∧ w' = w.
Proof. unfold getitem. destruct (d !! k); [by intros [= -> ->] | done]. Qed.

(** The check reads the snapshot front to back: what it finds in a prefix
    stands, and only when the prefix has no match does it go on. *)
Lemma check_app name domain (l1 l2 : list dict) (all_domains : dict) w :
  __check_term_exists name domain (l1 ++ l2) all_domains w =
    match __check_term_exists name domain l1 all_domains w with
    | (Ok false, w') => __check_term_exists name domain l2 all_domains w'
    | other => other
    end.
Proof.
  induction l1 as [|item rest IH]; simpl; [done|].
  unfold bind, getitem. destruct (item !! "name") as [n|]; simpl; [|done].
  case_bool_decide; [|done].
  destruct (item !! "domain") as [d|]; simpl; [|done].
  destruct (all_domains !! domain) as [id|]; simpl; [|done].
  by case_bool_decide.
Qed.

(** When [__create_term] returns, either the term was found and skipped,
    or it was not found, its domain resolved and the create request was
    answered with a status other than 403. *)
Lemma create_term_ok_inv self name description status domain all_terms all_domains w res w' :
  __create_term server self name description status domain all_terms all_domains w
    = (Ok res, w') →
  (__check_term_exists name domain all_terms all_domains w = (Ok true, w) ∧
   w' = emit (Log INFO (skip_message name domain)) w) ∨
  (__check_term_exists name domain all_terms all_domains w = (Ok false, w) ∧
   ∃ id r c lg,
     all_domains !! domain = Some id ∧
     server (POST (base_url self +:+ "/terms")
                  (term_payload name description status id) (headers self)) (catalog w) = (r, c) ∧
     status_code r ≠ 403%Z ∧
     w' = World c (trace w ++
            [Log INFO ("Creating glossary term: " +:+ name +:+ " under domain: " +:+ domain);
             Sent (POST (base_url self +:+ "/terms")
                        (term_payload name description status id) (headers self));
             Log INFO lg])).
Proof.
  unfold __create_term. intros (found & w1 & Hcheck & Hrest)%bind_ok_inv.
  destruct (check_term_exists_pure (remote:=remote) name domain all_terms all_domains)
    as [r Hpure].
  rewrite Hpure in Hcheck. injection Hcheck as -> <-. rewrite Hpure.
  destruct found.
  - left. split; [done|]. revert Hrest. run_m. by intros [= _ <-].
  - right. split; [done|].
    destruct (all_domains !! domain) as [id|] eqn:Hdom;
      [|by rewrite post_term_unresolved in Hrest].
    destruct (server (POST (base_url self +:+ "/terms")
                (term_payload name description status id) (headers self)) (catalog w))
      as [r c] eqn:Hr.
    rewrite (post_term_resolved _ _ _ _ _ id _ _ r c) in Hrest by done.
    destruct (status_code r =? 403)%Z eqn:Hs; [done|].
    apply Z.eqb_neq in Hs. injection Hrest as _ <-. by eexists id, r, c, _.
Qed.

(** A check that returned false went through the whole snapshot and found
    no term with the name under the id. *)
Lemma check_false_not_listed name domain id (all_terms : list dict) (all_domains : dict) w :
  all_domains !! domain = Some id →
  __check_term_exists name domain all_terms all_domains w = (Ok false, w) →
  ¬ listed name id all_terms.
Proof.
  intros Hdom. induction all_terms as [|item rest IH]; simpl.
  - intros _. apply listed_nil.
  - unfold bind, getitem. destruct (item !! "name") as [n|] eqn:Hn; simpl; [|done].
    case_bool_decide as Hname.
    + destruct (item !! "domain") as [d|] eqn:Hd; simpl; [|done].
      rewrite Hdom. simpl. case_bool_decide as Hid; [done|].
      intros Hrest [[_ Heq] | Hl]%listed_cons; [congruence | by apply IH].
    + intros Hrest [[Heq _] | Hl]%listed_cons; [congruence | by apply IH].
Qed.

(** What [create_for] gives: the request built from the record's fields
    and the id its domain resolves to. *)
Lemma create_for_inv self (all_domains : dict) (term : dict) req :
  create_for self all_domains term = Some req →
  ∃ name description status domain id,
    term !! "name" = Some name ∧ term !! "description" = Some description ∧
    term !! "status" = Some status ∧ term !! "domain" = Some domain ∧
    all_domains !! domain = Some id ∧
    req = POST (base_url self +:+ "/terms")
               (term_payload name description status id) (headers self).
Proof.
  unfold create_for.
  destruct (term !! "name") as [name|]; simpl; [|done].
  destruct (term !! "description") as [description|]; simpl; [|done].
  destruct (term !! "status") as [status|]; simpl; [|done].
  destruct (term !! "domain") as [domain|]; simpl; [|done].
  destruct (all_domains !! domain) as [id|] eqn:Hid; simpl; [|done].
  intros [= <-]. by exists name, description, status, domain, id.
Qed.

(** When the mapping gives different domain names different ids, create
    requests for records that differ in name or domain ask for terms that
    differ in name or domain id. *)
Lemma create_for_keys self (all_domains : dict) (created : list dict) (reqs : list request) :
  (∀ d1 d2 id, all_domains !! d1 = Some id → all_domains !! d2 = Some id → d1 = d2) →
  Forall2 (λ term req, create_for self all_domains term = Some req) created reqs →
  NoDup (record_key <$> created) →
  NoDup (payload_key <$> reqs).
Proof.
  intros Hinj Hfor. induction Hfor as [|term req created reqs Hreq Hfor IH]; simpl.
  - intros _. constructor.
  - intros [Hnotin Hnodup]%NoDup_cons. constructor; [|by apply IH].
    intros (req' & Hkey & Hin)%list_elem_of_fmap. apply Hnotin.
    apply list_elem_of_lookup in Hin as [i Hi].
    destruct (Forall2_lookup_r _ _ _ _ _ Hfor Hi) as (term' & Hi' & Hreq').
    apply list_elem_of_fmap. exists term'. split; [|by eapply list_elem_of_lookup_2].
    apply create_for_inv in Hreq as (n & ? & ? & d & id & Hn & _ & _ & Hd & Hid & ->).
    apply create_for_inv in Hreq' as (n' & ? & ? & d' & id' & Hn' & _ & _ & Hd' & Hid' & ->).
    simpl in Hkey.
    pose proof (term_payload_fields n x x0 id) as (Hp1 & _ & _ & Hp4).
    pose proof (term_payload_fields n' x1 x2 id') as (Hq1 & _ & _ & Hq4).
    rewrite Hp1, Hp4, Hq1, Hq4 in Hkey. injection Hkey as -> ->.
    assert (d = d') as -> by by eapply Hinj.
    unfold record_key. by rewrite Hn, Hd, Hn', Hd'.
Qed.

(** A run of the loop that returns: the create requests it sent are, one
    each, for records of the batch; on a quiet catalog the collection has
    only grown, by terms that have a name and a domain; and every record was
    either found in the snapshot or had its create request sent. *)
Lemma upload_each_ok self (stored : remote → list dict) terms all_terms all_domains w w' :
  quiet_catalog server self stored →
  upload_each server self terms all_terms all_domains w = (Ok tt, w') →
  ∃ created reqs added,
    created `sublist_of` terms ∧
    Forall2 (λ term req, create_for self all_domains term = Some req) created reqs ∧
    creates (trace w') = creates (trace w) ++ reqs ∧
    stored (catalog w') = stored (catalog w) ++ added ∧
    term_snapshot added ∧
    ∀ term name domain,
      term ∈ terms → term !! "name" = Some name → term !! "domain" = Some domain →
      ∃ id, all_domains !! domain = Some id ∧
        ((∀ w, __check_term_exists name domain all_terms all_domains w = (Ok true, w)) ∨
         ((∀ w, __check_term_exists name domain all_terms all_domains w = (Ok false, w)) ∧
          ∃ description status,
            POST (base_url self +:+ "/terms") (term_payload name description status id)
                 (headers self) ∈ reqs)).
Proof.
  intros Hquiet. revert w. induction terms as [|term rest IH]; intros w; simpl.
  - intros [= <-]. exists [], [], []. rewrite !app_nil_r.
    repeat split; try done; try constructor.
    intros term name domain Hin. by apply elem_of_nil in Hin.
  - intros (shown & w1 & [Hshown ->]%getitem_ok_inv & Hrun)%bind_ok_inv.
    apply bind_ok_inv in Hrun as ([] & w2 & Hlog & Hrun).
    injection Hlog as <-.
    apply bind_ok_inv in Hrun as (name & ? & [Hname ->]%getitem_ok_inv & Hrun).
    apply bind_ok_inv in Hrun as (description & ? & [Hdesc ->]%getitem_ok_inv & Hrun).
    apply bind_ok_inv in Hrun as (status & ? & [Hstatus ->]%getitem_ok_inv & Hrun).
    apply bind_ok_inv in Hrun as (domain & ? & [Hdomain ->]%getitem_ok_inv & Hrun).
    apply bind_ok_inv in Hrun as (res & w3 & Hcreate & Hrun).
    destruct (IH _ Hrun) as (created & reqs & added & Hsub & Hreqs & Hcr & Hst & Hsnap & Hcov).
    destruct (check_term_exists_pure (remote:=remote) name domain all_terms all_domains)
      as [outcome Hpure].
    apply create_term_ok_inv in Hcreate
      as [[Hfound ->] | [Hfound (id & r & c & lg & Hdom & Hr & Hs & ->)]].
    + (* found in the snapshot: skipped *)
      exists created, reqs, added. split; [by apply sublist_cons|].
      split; [done|]. split.
      { rewrite Hcr. simpl. rewrite !creates_app. simpl. by rewrite !app_nil_r. }
      split; [done|]. split; [done|].
      intros term' name' domain' [-> | Hin]%elem_of_cons Hn Hd; [|by eapply Hcov].
      assert (name' = name) as -> by congruence.
      assert (domain' = domain) as -> by congruence.
      rewrite Hpure in Hfound. injection Hfound as ->.
      destruct (all_domains !! domain) as [id|] eqn:Hdom.
      * exists id. split; [done|]. by left.
      * destruct (check_unresolved_outcome name domain all_terms all_domains w Hdom)
          as [Hno | [k Hk]]; rewrite Hpure in *; congruence.
    + (* not found: the create request was sent *)
      simpl in Hr.
      assert (create_for self all_domains term =
                Some (POST (base_url self +:+ "/terms")
                           (term_payload name description status id) (headers self))) as Hfor.
      { unfold create_for. rewrite Hname, Hdesc, Hstatus, Hdomain. simpl. by rewrite Hdom. }
      assert (∃ new, stored (catalog w') = stored (catalog w) ++ new ++ added ∧
                     term_snapshot (new ++ added)) as (new & Hst' & Hsnap').
      { pose proof (create_adds _ _ _ Hquiet (catalog w)
                      (term_payload name description status id)) as Hadds.
        rewrite Hr in Hadds. simpl in Hadds, Hst.
        destruct Hadds as [Hsame | (new & Hnew & Hnew_name & Hnew_domain)].
        - exists []. by rewrite Hst, Hsame.
        - exists [new]. rewrite Hst, Hnew, <- app_assoc. split; [done|].
          pose proof (term_payload_fields name description status id) as (Hp1 & _ & _ & Hp4).
          rewrite Hp1 in Hnew_name. rewrite Hp4 in Hnew_domain.
          constructor; [|done]. split; by eexists. }
      exists (term :: created),
        (POST (base_url self +:+ "/terms") (term_payload name description status id)
              (headers self) :: reqs),
        (new ++ added).
      split; [by apply sublist_skip|].
      split; [by constructor|].
      split.
      { rewrite Hcr. simpl. rewrite !creates_app. simpl. rewrite !app_nil_r.
        by rewrite <- app_assoc. }
      split; [done|]. split; [done|].
      intros term' name' domain' [-> | Hin]%elem_of_cons Hn Hd.
      * assert (name' = name) as -> by congruence.
        assert (domain' = domain) as -> by congruence.
        exists id. split; [done|]. right. split.
        -- rewrite Hpure in Hfound. injection Hfound as ->. done.
        -- exists description, status. apply elem_of_cons. by left.
      * destruct (Hcov term' name' domain' Hin Hn Hd)
          as (id' & Hid' & [Hyes | [Hno (d' & s' & Hreq)]]).
        -- exists id'. split; [done|]. by left.
        -- exists id'. split; [done|]. right. split; [done|].
           exists d', s'. apply elem_of_cons. by right.
Qed.

(** A run of the loop over records that are all found issues no create
    request, however it ends. *)
Lemma upload_each_all_found self terms all_terms all_domains w :
  (∀ term name domain,
     term ∈ terms → term !! "name" = Some name → term !! "domain" = Some domain →
     ∀ w, __check_term_exists name domain all_terms all_domains w = (Ok true, w)) →
  creates (trace (upload_each server self terms all_terms all_domains w).2) = creates (trace w).
Proof.
  revert w. induction terms as [|term rest IH]; intros w Hfound; simpl; [done|].
  unfold bind at 1. unfold getitem at 1.
  destruct (term !! "name") as [name|] eqn:Hname; [|done]. unfold ret at 1.
  unfold bind at 1. unfold logging_info at 1.
  unfold bind at 1. unfold getitem at 1. rewrite Hname. unfold ret at 1.
  unfold bind at 1. unfold getitem at 1.
  destruct (term !! "description") as [description|]; [|simpl; rewrite creates_app; simpl;
    by rewrite app_nil_r]. unfold ret at 1.
  unfold bind at 1. unfold getitem at 1.
  destruct (term !! "status") as [status|]; [|simpl; rewrite creates_app; simpl;
    by rewrite app_nil_r]. unfold ret at 1.
  unfold bind at 1. unfold getitem at 1.
  destruct (term !! "domain") as [domain|] eqn:Hdomain; [|simpl; rewrite creates_app; simpl;
    by rewrite app_nil_r]. unfold ret at 1.
  unfold bind at 1. unfold __create_term. unfold bind at 1.
  rewrite (Hfound term name domain) by (done || apply elem_of_cons; by left).
  unfold bind at 1. unfold logging_info at 1. unfold ret at 1.
  rewrite IH.
  - simpl. rewrite !creates_app. simpl. by rewrite !app_nil_r.
  - intros term' name' domain' Hin. apply Hfound. apply elem_of_cons. by right.
Qed.

(** The mapping [get_all_domains] returns is decided by the answer to the
    domain listing; on a quiet catalog, which answers it the same way every
    time, it is the same from every world. *)
Lemma get_all_domains_fixed self (stored : remote → list dict) w all_domains w' :
  quiet_catalog server self stored →
  get_all_domains server self w = (Ok all_domains, w') →
  ∀ w0, (get_all_domains server self w0).1 = Ok all_domains.
Proof.
  intros Hquiet Hdoms w0.
  destruct (server (GET (base_url self +:+ "/businessdomains") (headers self)) (catalog w))
    as [r c] eqn:Hr.
  destruct (server (GET (base_url self +:+ "/businessdomains") (headers self)) (catalog w0))
    as [r0 c0] eqn:Hr0.
  assert (r0 = r) as ->.
  { pose proof (domains_fixed _ _ _ Hquiet (catalog w0) (catalog w)) as Hfix.
    by rewrite Hr, Hr0 in Hfix. }
  destruct (get_all_domains_shape self r) as [res Hshape].
  rewrite (Hshape _ _ Hr) in Hdoms. injection Hdoms as -> _.
  by rewrite (Hshape _ _ Hr0).
Qed.

(** C2, as the code has it: on a catalog that nobody else changes, after
    a run of [upload_glossary_terms] that returned and whose create requests
    all took effect (each is listed afterwards), a second run over the same
    batch issues no create request.  The create requests of the first run
    are, one each, for records of the batch; the batch having no two records
    with the same name and domain, these records differ pairwise in name or
    domain, and, when the domains mapping gives different names different
    ids, the requests ask for terms that differ pairwise in name or domain
    id: each term is created at most once. *)
Theorem upload_twice_creates_once self (stored : remote → list dict) terms w0 w1 :
  quiet_catalog server self stored →
  NoDup (record_key <$> terms) →
  upload_glossary_terms server self terms w0 = (Ok tt, w1) →
  (∀ reqs, creates (trace w1) = creates (trace w0) ++ reqs →
           Forall (took_effect (stored (catalog w1))) reqs) →
  creates (trace (upload_glossary_terms server self terms w1).2) = creates (trace w1) ∧
  ∃ all_domains created reqs,
    (∀ w, (get_all_domains server self w).1 = Ok all_domains) ∧
    created `sublist_of` terms ∧
    NoDup (record_key <$> created) ∧
    Forall2 (λ term req, create_for self all_domains term = Some req) created reqs ∧
    creates (trace w1) = creates (trace w0) ++ reqs ∧
    ((∀ d1 d2 id, all_domains !! d1 = Some id → all_domains !! d2 = Some id → d1 = d2) →
     NoDup (payload_key <$> reqs)).
Proof.
  intros Hquiet Hnodup Hfirst Heffect. unfold upload_glossary_terms in Hfirst.
  apply bind_ok_inv in Hfirst as (listing & wa & Hlist & Hfirst).
  apply bind_ok_inv in Hfirst as (all_terms & ? & Hval & Hfirst).
  unfold getvalue in Hval. destruct (value listing) as [l|] eqn:Hvalue; [|done].
  injection Hval as -> <-.
  apply bind_ok_inv in Hfirst as (all_domains & wb & Hdoms & Hloop).
  (* the first run: what was listed, and what the loop did *)
  pose proof (get_all_glossary_terms_creates _ _ _ _ Hlist) as Hcr_a.
  apply get_all_glossary_terms_ok in Hlist as (Hjson & Hcat_a & _).
  pose proof (terms_shown _ _ _ Hquiet _ _ _ Hjson Hvalue) as ->.
  pose proof (get_all_domains_fixed _ _ _ _ _ Hquiet Hdoms) as Hfixed.
  pose proof (get_all_domains_creates _ _ _ _ Hdoms) as [Hcr_b Hcat_b].
  assert (stored (catalog wb) = stored (catalog w0)) as Hst_b.
  { rewrite Hcat_b, (domains_kept _ _ _ Hquiet), Hcat_a. apply (terms_kept _ _ _ Hquiet). }
  destruct (upload_each_ok _ stored _ _ _ _ _ Hquiet Hloop)
    as (created & reqs & added & Hsub & Hreqs & Hcr & Hst & Hsnap & Hcov).
  assert (creates (trace w1) = creates (trace w0) ++ reqs) as Hcreates
    by by rewrite Hcr, Hcr_b, Hcr_a.
  assert (NoDup (record_key <$> created)) as Hnodup'.
  { eapply sublist_NoDup; [exact Hnodup|]. by apply fmap_sublist. }
  split.
  - (* the second run *)
    specialize (Heffect reqs Hcreates).
    unfold upload_glossary_terms. unfold bind at 1.
    destruct (get_all_glossary_terms server self w1) as [[listing2|e] wa2] eqn:Hlist2;
      [|by apply get_all_glossary_terms_creates in Hlist2].
    pose proof (get_all_glossary_terms_creates _ _ _ _ Hlist2) as Hcr_a2.
    apply get_all_glossary_terms_ok in Hlist2 as (Hjson2 & Hcat_a2 & _).
    unfold bind at 1. unfold getvalue.
    destruct (value listing2) as [l2|] eqn:Hvalue2; [|done]. unfold ret at 1.
    pose proof (terms_shown _ _ _ Hquiet _ _ _ Hjson2 Hvalue2) as ->.
    (* the domains are answered as in the first run *)
    unfold bind at 1.
    destruct (get_all_domains server self wa2) as [res2 wb2] eqn:Hdoms2.
    pose proof (Hfixed wa2) as Hres2. rewrite Hdoms2 in Hres2. simpl in Hres2. subst res2.
    apply get_all_domains_creates in Hdoms2 as [Hcr_b2 _].
    rewrite upload_each_all_found; [by rewrite Hcr_b2|].
    intros term name domain Hin Hname Hdomain w.
    destruct (Hcov term name domain Hin Hname Hdomain)
      as (id & Hid & [Hyes | [Hno (description & status & Hreq)]]).
    + rewrite Hst, Hst_b, check_app. by rewrite Hyes.
    + rewrite Hst, Hst_b, check_app, Hno.
      (* the create request took effect, and not among the terms listed before *)
      rewrite Forall_forall in Heffect.
      destruct (Heffect _ Hreq) as (stored_term & Hin_stored & Hst_name & Hst_domain).
      pose proof (term_payload_fields name description status id) as (Hp1 & _ & _ & Hp4).
      rewrite Hp1 in Hst_name. rewrite Hp4 in Hst_domain.
      rewrite Hst, Hst_b in Hin_stored. apply elem_of_app in Hin_stored as [Hbefore | Hadded].
      * exfalso. apply (check_false_not_listed name domain id (stored (catalog w0))
                          all_domains w Hid (Hno w)).
        by exists stored_term.
      * destruct (check_resolved name domain id added all_domains w Hsnap Hid)
          as (b & -> & Hb).
        assert (listed name id added) as Hl by by exists stored_term.
        apply Hb in Hl. by subst.
  - (* the creates of the first run *)
    exists all_domains, created, reqs. repeat split; try done.
    intros Hinj. by eapply create_for_keys.
Qed.

End Properties.

(** ** The properties on concrete runs *)

Example init_contoso :
  __init__ (remote:=unit) "token" "contoso" contoso_headers (World tt []) =
    (Ok contoso,
     World tt [Log INFO "PurviewGlossaryManager initialized for tenant_id: contoso"]).
Proof. vm_compute. reflexivity. Qed.

(** Fresh create: no term listed, the domain resolves, one create request
    with the resolved id. *)
Example fresh_create :
  __create_term (small_catalog finance) contoso "Revenue" "Money earned" "Draft" "Finance"
      [] finance_ids (World [] []) =
    (Ok (Some (Document (<["id" := "0"]> (term_payload "Revenue" "Money earned" "Draft" "dom-123"))
                        None)),
     World [<["id" := "0"]> (term_payload "Revenue" "Money earned" "Draft" "dom-123")]
       [Log INFO "Creating glossary term: Revenue under domain: Finance";
        Sent (POST (base_url contoso +:+ "/terms")
                   (term_payload "Revenue" "Money earned" "Draft" "dom-123") contoso_headers);
        Log INFO "Successfully created glossary term: [Revenue] in the [Finance] governance domain."]).
Proof. vm_compute. reflexivity. Qed.

(** Skip existing: the term is listed under the resolved id, nothing is sent. *)
Example skip_existing :
  __create_term (small_catalog finance) contoso "Revenue" "Money earned" "Draft" "Finance"
      [revenue_listed] finance_ids (World [revenue_listed] []) =
    (Ok None,
     World [revenue_listed]
       [Log INFO ("The term [Revenue] already exists in the governance domain [Finance]. " +:+
                  "Hence skipping creating this term!")]).
Proof. vm_compute. reflexivity. Qed.

(** A batch with the same record twice: the snapshot is not refreshed, so
    both are created. *)
Example duplicate_rows_both_created :
  creates (trace (upload_glossary_terms (small_catalog finance) contoso [revenue; revenue]
                    (World [] [])).2) =
    [POST (base_url contoso +:+ "/terms")
          (term_payload "Revenue" "Money earned" "Draft" "dom-123") contoso_headers;
     POST (base_url contoso +:+ "/terms")
          (term_payload "Revenue" "Money earned" "Draft" "dom-123") contoso_headers].
Proof. vm_compute. reflexivity. Qed.

(** Delete-all over three terms, the second delete answered with 403. *)
Example delete_all_partial_failure :
  delete_all_glossary_term scripted contoso
      (World [listing [revenue_listed; margin_listed; cost_listed];
              Response 204 None; Response 403 None; Response 204 None] []) =
    (Ok tt,
     World []
       [Log INFO "Fetching all glossary terms...";
        Sent (GET (base_url contoso +:+ "/terms") contoso_headers);
        Log INFO "Successfully fetched glossary terms.";
        Log INFO "Deleting glossary term with id: t-1";
        Sent (DELETE (base_url contoso +:+ "/terms/t-1") contoso_headers);
        Log INFO "Successfully deleted glossary term with id: t-1";
        Log INFO "[Revenue] has been deleted.";
        Log INFO "Deleting glossary term with id: t-2";
        Sent (DELETE (base_url contoso +:+ "/terms/t-2") contoso_headers);
        Log WARNING "Permission error while deleting term with id: t-2. Check Data Steward Role.";
        Log WARNING "[Margin] could not be deleted. Response status code: 403";
        Log INFO "Deleting glossary term with id: t-3";
        Sent (DELETE (base_url contoso +:+ "/terms/t-3") contoso_headers);
        Log INFO "Successfully deleted glossary term with id: t-3";
        Log INFO "[Cost] has been deleted."]).
Proof. vm_compute. reflexivity. Qed.

Lemma term_snapshot_revenue : term_snapshot [revenue_listed].
Proof. constructor; [|constructor]. split; eexists; vm_compute; reflexivity. Defined.

Lemma check_term_exists_iff_witness :
  term_snapshot [revenue_listed] ∧
  finance_ids !! "Finance" = Some "dom-123" ∧
  ∃ b : bool,
    __check_term_exists "Revenue" "Finance" [revenue_listed] finance_ids (World tt [])
      = (Ok b, World tt []) ∧
    (b = true ↔ listed "Revenue" "dom-123" [revenue_listed]) ∧
    (listed "Revenue" "dom-123" [revenue_listed] →
       __check_term_exists "Revenue" "Finance" [revenue_listed] finance_ids (World tt [])
         = (Ok true, World tt [])) ∧
    (¬ listed "Revenue" "dom-123" [revenue_listed] →
       __check_term_exists "Revenue" "Finance" [revenue_listed] finance_ids (World tt [])
         = (Ok false, World tt [])).
Proof.
  assert (finance_ids !! "Finance" = Some "dom-123") as Hdom by (vm_compute; reflexivity).
  split; [exact term_snapshot_revenue|]. split; [exact Hdom|].
  exact (check_term_exists_iff "Revenue" "Finance" "dom-123" [revenue_listed] finance_ids
           (World tt []) term_snapshot_revenue Hdom).
Defined.

(** C4 as stated fails: with the domain name missing from the mapping,
    the check returns false on the empty snapshot and on a snapshot without
    a term of the name. *)
Lemma check_term_exists_unresolved_returns_false :
  (∅ : dict) !! "Finance" = None ∧
  __check_term_exists "Revenue" "Finance" [] ∅ (World tt []) = (Ok false, World tt []) ∧
  __check_term_exists "Revenue" "Finance" [margin_listed] ∅ (World tt [])
    = (Ok false, World tt []).
Proof. repeat split; vm_compute; reflexivity. Qed.

Lemma check_term_exists_unresolved_witness :
  term_snapshot [revenue_listed] ∧
  (∅ : dict) !! "Finance" = None ∧
  named "Revenue" [revenue_listed] ∧
  __check_term_exists "Revenue" "Finance" [revenue_listed] ∅ (World tt [])
    = (Raise (KeyError "Finance"), World tt []).
Proof.
  assert ((∅ : dict) !! "Finance" = None) as Hdom by reflexivity.
  assert (named "Revenue" [revenue_listed]) as Hnamed.
  { exists revenue_listed. split; [apply list_elem_of_here | vm_compute; reflexivity]. }
  split; [exact term_snapshot_revenue|]. split; [exact Hdom|]. split; [exact Hnamed|].
  exact (proj1 (check_term_exists_unresolved "Revenue" "Finance" [revenue_listed] ∅
                  (World tt []) term_snapshot_revenue Hdom) Hnamed).
Defined.

Lemma create_term_only_if_absent_witness :
  term_snapshot [] ∧
  finance_ids !! "Finance" = Some "dom-123" ∧
  ¬ listed "Revenue" "dom-123" [] ∧
  ∃ res w' payload,
    __create_term (small_catalog finance) contoso "Revenue" "Money earned" "Draft" "Finance"
        [] finance_ids (World [] []) = (res, w') ∧
    sent (trace w') = sent [] ++ [POST (base_url contoso +:+ "/terms") payload (headers contoso)] ∧
    creates (trace w') = creates [] ++ [POST (base_url contoso +:+ "/terms") payload (headers contoso)] ∧
    payload !! "name" = Some "Revenue" ∧
    payload !! "description" = Some "Money earned" ∧
    payload !! "status" = Some "Draft" ∧
    payload !! "domain" = Some "dom-123".
Proof.
  assert (term_snapshot []) as Hsnap by constructor.
  assert (finance_ids !! "Finance" = Some "dom-123") as Hdom by (vm_compute; reflexivity).
  split; [exact Hsnap|]. split; [exact Hdom|]. split; [apply listed_nil|].
  exact (proj2 (create_term_only_if_absent (small_catalog finance) contoso
                  "Revenue" "Money earned" "Draft" "Finance" "dom-123" [] finance_ids
                  (World [] []) Hsnap Hdom) (listed_nil "Revenue" "dom-123")).
Defined.

(** C5 as stated fails: a listing answered with status 500 and a JSON body
    is returned to the caller, and success is logged. *)
Lemma get_all_glossary_terms_returns_on_500 :
  get_all_glossary_terms scripted contoso
      (World [Response 500 (Some (Document ∅ (Some [revenue_listed])))] []) =
    (Ok (Document ∅ (Some [revenue_listed])),
     World []
       [Log INFO "Fetching all glossary terms...";
        Sent (GET (base_url contoso +:+ "/terms") contoso_headers);
        Log INFO "Successfully fetched glossary terms."]).
Proof. vm_compute. reflexivity. Qed.

Lemma get_all_glossary_terms_status_witness :
  (get_all_glossary_terms scripted contoso (World [Response 403 None] [])).1
    = Raise (Exception permission_error) ∧
  get_all_glossary_terms scripted contoso (World [Response 404 (Some (Document ∅ None))] []) =
    (Ok (Document ∅ None),
     World []
       ([] ++ [Log INFO "Fetching all glossary terms...";
               Sent (GET (base_url contoso +:+ "/terms") (headers contoso));
               Log INFO "Successfully fetched glossary terms."])).
Proof.
  split.
  - exact (proj1 (get_all_glossary_terms_status scripted contoso (World [Response 403 None] [])
                    (Response 403 None) [] eq_refl) eq_refl).
  - refine (proj2 (get_all_glossary_terms_status scripted contoso
                     (World [Response 404 (Some (Document ∅ None))] [])
                     (Response 404 (Some (Document ∅ None))) [] eq_refl) _ _ eq_refl).
    simpl. lia.
Defined.

Lemma create_unresolved_domain_witness :
  (∅ : dict) !! "Finance" = None ∧
  (∃ k, __create_term (small_catalog []) contoso "Revenue" "Money earned" "Draft" "Finance"
          [revenue_listed] ∅ revenue_held = (Raise (KeyError k), revenue_held) ∧
        (term_snapshot [revenue_listed] → k = "Finance")) ∧
  (∃ k, create_term (small_catalog []) contoso "Revenue" "Money earned" "Draft" "Finance"
          revenue_held = (Raise (KeyError k), domains_fetched) ∧
        (term_snapshot [revenue_listed] → k = "Finance") ∧
        creates (trace domains_fetched) = creates (trace revenue_held)).
Proof.
  assert ((∅ : dict) !! "Finance" = None) as Hdom by reflexivity.
  assert (get_all_glossary_terms (small_catalog []) contoso revenue_held
            = (Ok (Document ∅ (Some [revenue_listed])), terms_fetched)) as Hlist
    by (vm_compute; reflexivity).
  assert (get_all_domains (small_catalog []) contoso terms_fetched = (Ok ∅, domains_fetched))
    as Hdoms by (vm_compute; reflexivity).
  split; [exact Hdom|].
  pose proof (create_unresolved_domain (small_catalog []) contoso
                "Revenue" "Money earned" "Draft" "Finance" [revenue_listed] ∅ revenue_held Hdom)
    as [Hprivate Hpublic].
  split; [exact Hprivate|].
  exact (Hpublic (Document ∅ (Some [revenue_listed])) terms_fetched domains_fetched
           Hlist eq_refl Hdoms).
Defined.

(** C7 as stated fails: with an empty [term_id] and a name, both passed,
    the call is not a usage error; the terms are fetched and filtered. *)
Lemma get_term_both_supplied_fetches :
  get_term scripted contoso (Some EmptyString) (Some "Revenue")
      (World [listing [revenue_listed; margin_listed]] []) =
    (Ok (inr [revenue_listed]),
     World []
       [Log INFO "Fetching glossary term with name: Revenue...";
        Log INFO "Fetching all glossary terms...";
        Sent (GET (base_url contoso +:+ "/terms") contoso_headers);
        Log INFO "Successfully fetched glossary terms.";
        Log INFO "Successfully fetched glossary term [Revenue]."]).
Proof. vm_compute. reflexivity. Qed.

Lemma get_term_usage_error_witness :
  get_term scripted contoso (Some "t-1") (Some "Revenue") (World [listing []] []) =
    (Raise (Exception "Provide either 'term_id' or 'term_name', not both."),
     World [listing []] []) ∧
  get_term scripted contoso None None (World [listing []] []) =
    (Raise (Exception "Either 'term_id' or 'term_name' must be provided."),
     World [listing []] []).
Proof.
  split.
  - exact (proj1 (get_term_usage_error scripted contoso (Some "t-1") (Some "Revenue")
                    (World [listing []] [])) eq_refl eq_refl).
  - exact (proj2 (get_term_usage_error scripted contoso None None
                    (World [listing []] [])) eq_refl eq_refl).
Defined.

Lemma get_term_truthiness_witness :
  "Revenue" ≠ EmptyString ∧
  ∃ res c evs,
    get_term scripted contoso (Some EmptyString) (Some "Revenue")
        (World [listing [revenue_listed]] []) =
      (res,
       World c ([] ++
         Log INFO ("Fetching glossary term with name: " +:+ "Revenue" +:+ "...") ::
         Log INFO "Fetching all glossary terms..." ::
         Sent (GET (base_url contoso +:+ "/terms") (headers contoso)) :: evs)) ∧
    res ≠ Raise (Exception "Provide either 'term_id' or 'term_name', not both.").
Proof.
  assert ("Revenue" ≠ EmptyString) as Hname by discriminate.
  split; [exact Hname|].
  exact (proj1 (get_term_truthiness scripted contoso "Revenue"
                  (World [listing [revenue_listed]] [])) Hname).
Defined.

Lemma upload_aborts_when_forbidden_witness :
  (∃ w', upload_glossary_terms scripted contoso [revenue; margin] (World [Response 403 None] [])
           = (Raise (Exception permission_error), w') ∧
         creates (trace w') = creates [] ∧
         sent (trace w') = sent [] ++ [GET (base_url contoso +:+ "/terms") (headers contoso)]) ∧
  (∃ w', upload_glossary_terms scripted contoso [revenue; margin]
           (World [listing []; Response 403 None] [])
           = (Raise (Exception permission_error), w') ∧
         creates (trace w') = creates [] ∧
         sent (trace w') = sent [] ++
           [GET (base_url contoso +:+ "/terms") (headers contoso);
            GET (base_url contoso +:+ "/businessdomains") (headers contoso)]).
Proof.
  split.
  - exact (proj1 (upload_aborts_when_forbidden scripted contoso [revenue; margin]
                    (World [Response 403 None] [])) (Response 403 None) [] eq_refl eq_refl).
  - eapply (proj2 (upload_aborts_when_forbidden scripted contoso [revenue; margin]
                     (World [listing []; Response 403 None] []))).
    + vm_compute. reflexivity.
    + reflexivity.
    + reflexivity.
    + reflexivity.
Defined.

Lemma delete_returns_status_and_continues_witness :
  (∃ w', delete_glossary_term scripted contoso "t-2" (World [Response 403 None] [])
           = (Ok 403%Z, w') ∧ catalog w' = []) ∧
  (∃ w2, delete_all_glossary_term scripted contoso
           (World [listing [revenue_listed; margin_listed; cost_listed];
                   Response 204 None; Response 403 None; Response 204 None] [])
           = (Ok tt, w2) ∧
         sent (trace w2) =
           [GET (base_url contoso +:+ "/terms") contoso_headers;
            DELETE (base_url contoso +:+ "/terms/t-1") contoso_headers;
            DELETE (base_url contoso +:+ "/terms/t-2") contoso_headers;
            DELETE (base_url contoso +:+ "/terms/t-3") contoso_headers]).
Proof.
  split.
  - exact (proj1 (delete_returns_status_and_continues scripted contoso
                    (World [Response 403 None] [])) "t-2" (Response 403 None) [] eq_refl).
  - edestruct (proj2 (delete_returns_status_and_continues scripted contoso
                 (World [listing [revenue_listed; margin_listed; cost_listed];
                         Response 204 None; Response 403 None; Response 204 None] [])))
      with (ids := ["t-1"; "t-2"; "t-3"]) as (w2 & Hrun & Hsent).
    + vm_compute. reflexivity.
    + reflexivity.
    + repeat constructor.
    + repeat constructor; eexists; vm_compute; reflexivity.
    + exists w2. split; [exact Hrun|]. rewrite Hsent. vm_compute. reflexivity.
Defined.

Lemma small_catalog_quiet : quiet_catalog (small_catalog finance) contoso (λ held, held).
Proof.
  split.
  - intros c body l. vm_compute. intros [= <-] [= <-]. reflexivity.
  - intros c. reflexivity.
  - intros c c'. reflexivity.
  - intros c. reflexivity.
  - intros c payload. right. eexists. split; [reflexivity|].
    split; apply lookup_insert_ne; discriminate.
Defined.

(** The refusing catalog is a quiet catalog too: nobody else changes it. *)
Lemma refusing_catalog_quiet : quiet_catalog (refusing_catalog finance) contoso (λ held, held).
Proof.
  split.
  - intros c body l. vm_compute. intros [= <-] [= <-]. reflexivity.
  - intros c. reflexivity.
  - intros c c'. reflexivity.
  - intros c. reflexivity.
  - intros c payload. by left.
Qed.

(** C2 as stated fails: on a catalog that nobody changes and that refuses
    the create request with status 400, the first run over a batch of one
    record returns (the refusal is logged as a success), the catalog is as
    before, and the second run sends the create request again. *)
Lemma upload_twice_recreates_refused :
  NoDup (record_key <$> [margin]) ∧
  refused_upload.1 = Ok tt ∧
  catalog refused_upload.2 = catalog revenue_held ∧
  creates (trace refused_upload.2) =
    [POST (base_url contoso +:+ "/terms")
          (term_payload "Margin" "Revenue less cost" "Published" "dom-123") contoso_headers] ∧
  creates (trace (upload_glossary_terms (refusing_catalog finance) contoso [margin]
                    refused_upload.2).2) =
    [POST (base_url contoso +:+ "/terms")
          (term_payload "Margin" "Revenue less cost" "Published" "dom-123") contoso_headers;
     POST (base_url contoso +:+ "/terms")
          (term_payload "Margin" "Revenue less cost" "Published" "dom-123") contoso_headers].
Proof.
  split; [apply (bool_decide_unpack _); vm_compute; exact I|].
  repeat split; vm_compute; reflexivity.
Qed.

Lemma upload_twice_creates_once_witness :
  NoDup (record_key <$> [revenue; margin]) ∧
  first_upload.1 = Ok tt ∧
  (∀ reqs, creates (trace first_upload.2) = creates (trace revenue_held) ++ reqs →
           Forall (took_effect (catalog first_upload.2)) reqs) ∧
  creates (trace (upload_glossary_terms (small_catalog finance) contoso [revenue; margin]
                    first_upload.2).2) = creates (trace first_upload.2) ∧
  ∃ all_domains created reqs,
    (∀ w, (get_all_domains (small_catalog finance) contoso w).1 = Ok all_domains) ∧
    created `sublist_of` [revenue; margin] ∧
    NoDup (record_key <$> created) ∧
    Forall2 (λ term req, create_for contoso all_domains term = Some req) created reqs ∧
    creates (trace first_upload.2) = creates (trace revenue_held) ++ reqs ∧
    ((∀ d1 d2 id, all_domains !! d1 = Some id → all_domains !! d2 = Some id → d1 = d2) →
     NoDup (payload_key <$> reqs)).
Proof.
  assert (NoDup (record_key <$> [revenue; margin])) as Hnodup.
  { apply (bool_decide_unpack _). vm_compute. exact I. }
  assert (first_upload.1 = Ok tt) as Hok by (vm_compute; reflexivity).
  assert (∀ reqs, creates (trace first_upload.2) = creates (trace revenue_held) ++ reqs →
                  Forall (took_effect (catalog first_upload.2)) reqs) as Heffect.
  { intros reqs Heq.
    assert (creates (trace first_upload.2) =
              [POST (base_url contoso +:+ "/terms")
                    (term_payload "Margin" "Revenue less cost" "Published" "dom-123")
                    contoso_headers]) as Hcreated by (vm_compute; reflexivity).
    rewrite Hcreated in Heq. change (creates (trace revenue_held) ++ reqs) with reqs in Heq.
    subst reqs. constructor; [|constructor].
    exists (<["id" := "1"]> (term_payload "Margin" "Revenue less cost" "Published" "dom-123")).
    split; [|split; vm_compute; reflexivity].
    apply list_elem_of_lookup. exists 1. vm_compute. reflexivity. }
  split; [exact Hnodup|]. split; [exact Hok|]. split; [exact Heffect|].
  apply (upload_twice_creates_once (small_catalog finance) contoso (λ held, held)
           [revenue; margin] revenue_held first_upload.2 small_catalog_quiet Hnodup);
    [|exact Heffect].
  rewrite <- Hok. apply surjective_pairing.
Defined.

(** The first upload finds Revenue listed and creates Margin; the second
    creates nothing. *)
Example first_upload_creates_margin :
  creates (trace first_upload.2) =
    [POST (base_url contoso +:+ "/terms")
          (term_payload "Margin" "Revenue less cost" "Published" "dom-123") contoso_headers].
Proof. vm_compute. reflexivity. Qed.

(** ** Further properties of the manager *)

Section Further.
Context {remote : Type}.
Variable server : request → remote → response * remote.
Implicit Types (w : world remote) (self : PurviewGlossaryManager).

(** *** Listing the domains *)

Lemma collect_domains_raises (items : list dict) (domains : dict) w e w' :
  collect_domains items domains w = (Raise e, w') → ∃ k, e = KeyError k.
Proof.
  revert domains. induction items as [|item rest IH]; intros domains; simpl; [done|].
  unfold bind, getitem.
  destruct (item !! "id") as [id|]; simpl; [|intros [= <- _]; eauto].
  destruct (item !! "name") as [name|]; simpl; [|intros [= <- _]; eauto].
  apply IH.
Qed.

Lemma collect_domains_world (items : list dict) (domains : dict) w :
  (collect_domains items domains w).2 = w.
Proof.
  destruct (collect_domains_pure (remote:=remote) items domains) as [r Hr]. by rewrite Hr.
Qed.

(** Below 400 the outcome is that of reading the body. *)
Lemma get_all_domains_below_400 self w r c :
  server (GET (base_url self +:+ "/businessdomains") (headers self)) (catalog w) = (r, c) →
  (status_code r < 400)%Z →
  get_all_domains server self w =
    (match json r with
     | None => Raise JSONDecodeError
     | Some body =>
         match value body with
         | None => Raise (KeyError "value")
         | Some items => (collect_domains items ∅ w).1
         end
     end,
     World c (trace w ++
       [Log INFO "Fetching all governance domains...";
        Sent (GET (base_url self +:+ "/businessdomains") (headers self))])).
Proof.
  intros Hr Hs. unfold get_all_domains. run_m. rewrite Hr.
  apply Z.leb_gt in Hs. rewrite Hs. simpl.
  destruct (json r) as [body|]; run_m; [|by flatten_trace].
  destruct (value body) as [items|]; run_m; [|by flatten_trace].
  destruct (collect_domains_pure (remote:=remote) items ∅) as [res Hres].
  rewrite !Hres. by flatten_trace.
Qed.

(** X1: [get_all_domains] raises the permission error exactly when the
    catalog answers with a status of 400 or more, whatever the status is
    (404 and 500 as well as 403); in every case it has sent the one GET
    request for the domains and nothing else. *)
Theorem get_all_domains_permission_iff self w r c :
  server (GET (base_url self +:+ "/businessdomains") (headers self)) (catalog w) = (r, c) →
  ((get_all_domains server self w).1 = Raise (Exception permission_error)
     ↔ (400 ≤ status_code r)%Z) ∧
  sent (trace (get_all_domains server self w).2) =
    sent (trace w) ++ [GET (base_url self +:+ "/businessdomains") (headers self)].
Proof.
  intros Hr. destruct (Z.le_gt_cases 400 (status_code r)) as [Hs|Hs].
  - rewrite (get_all_domains_403 server _ _ _ _ Hr Hs). simpl.
    split; [done|]. rewrite sent_app. simpl. done.
  - rewrite (get_all_domains_below_400 _ _ _ _ Hr Hs). simpl. split.
    + split; [|lia]. destruct (json r) as [body|]; [|done].
      destruct (value body) as [items|]; [|done].
      destruct (collect_domains items ∅ w) as [[D|e] w'] eqn:Hc; [done|].
      apply collect_domains_raises in Hc as [k ->]. done.
    + rewrite sent_app. simpl. done.
Qed.

Lemma collect_domains_total (items : list dict) (domains : dict) w :
  Forall domain_item items → ∃ D, collect_domains items domains w = (Ok D, w).
Proof.
  intros Hitems. revert domains.
  induction Hitems as [|item rest [[id Hid] [name Hname]] _ IH]; intros domains; simpl.
  - by exists domains.
  - unfold bind, getitem. rewrite Hid. simpl. rewrite Hname. simpl. apply IH.
Qed.

(** What the loop leaves in the mapping: for each name the id of the last
    item of that name, and what was there before for the other names. *)
Lemma collect_domains_lookup (items : list dict) (domains D : dict) w w' :
  collect_domains items domains w = (Ok D, w') →
  ∀ name id,
    D !! name = Some id ↔
    (∃ front item back,
       items = front ++ item :: back ∧
       item !! "name" = Some name ∧ item !! "id" = Some id ∧
       Forall (λ later, later !! "name" ≠ Some name) back) ∨
    (domains !! name = Some id ∧ Forall (λ item, item !! "name" ≠ Some name) items).
Proof.
  revert domains. induction items as [|item rest IH]; intros domains; simpl.
  - intros [= <- _] name id. split.
    + intros H. right. by split.
    + intros [(front & x & back & Heq & _) | [H _]]; [|done].
      by destruct front.
  - unfold bind, getitem.
    destruct (item !! "id") as [id0|] eqn:Hid; simpl; [|done].
    destruct (item !! "name") as [name0|] eqn:Hname; simpl; [|done].
    intros Hrest name id. rewrite (IH _ Hrest name id). split.
    + intros [(front & x & back & -> & Hx & Hxid & Hback) | [Hins Hnone]].
      * left. by exists (item :: front), x, back.
      * destruct (decide (name0 = name)) as [->|Hne].
        -- rewrite lookup_insert_eq in Hins. injection Hins as ->.
           left. by exists [], item, rest.
        -- rewrite lookup_insert_ne in Hins by done. right. split; [done|].
           constructor; [congruence | done].
    + intros [(front & x & back & Heq & Hx & Hxid & Hback) | [Hdom Hnone]].
      * destruct front as [|y front]; simpl in Heq; injection Heq as <- ->.
        -- right. split; [|done].
           assert (name0 = name) as -> by congruence.
           rewrite lookup_insert_eq. congruence.
        -- left. by exists front, x, back.
      * apply Forall_cons in Hnone as [Hne Hnone]. right. split; [|done].
        rewrite lookup_insert_ne; [done | congruence].
Qed.

(** X2: answered below 400 with a listing of domains that all have an id
    and a name, [get_all_domains] returns a mapping that takes a name to an
    id exactly when that is the id of the last listed domain of that name: a
    later domain of the same name overrides an earlier one, and nothing else
    is in the mapping. *)
Theorem get_all_domains_last_wins self w r c body items :
  server (GET (base_url self +:+ "/businessdomains") (headers self)) (catalog w) = (r, c) →
  (status_code r < 400)%Z →
  json r = Some body →
  value body = Some items →
  Forall domain_item items →
  ∃ D w',
    get_all_domains server self w = (Ok D, w') ∧
    ∀ name id,
      D !! name = Some id ↔
      ∃ front item back,
        items = front ++ item :: back ∧
        item !! "name" = Some name ∧ item !! "id" = Some id ∧
        Forall (λ later, later !! "name" ≠ Some name) back.
Proof.
  intros Hr Hs Hjson Hvalue Hitems.
  rewrite (get_all_domains_below_400 _ _ _ _ Hr Hs), Hjson, Hvalue.
  destruct (collect_domains_total items ∅ w Hitems) as [D HD].
  rewrite HD. simpl. eexists D, _. split; [done|].
  intros name id. rewrite (collect_domains_lookup _ _ _ _ _ HD name id).
  split; [|by left]. intros [H | [Hempty _]]; [done|].
  by rewrite lookup_empty in Hempty.
Qed.

Lemma collect_domains_app (l1 l2 : list dict) (domains : dict) w :
  collect_domains (l1 ++ l2) domains w =
    match collect_domains l1 domains w with
    | (Ok D, w') => collect_domains l2 D w'
    | other => other
    end.
Proof.
  revert domains. induction l1 as [|item rest IH]; intros domains; simpl; [done|].
  unfold bind, getitem.
  destruct (item !! "id"); simpl; [|done].
  destruct (item !! "name"); simpl; [|done].
  apply IH.
Qed.

(** X3: answered below 400 with a listing in which some domain lacks its
    id or its name, [get_all_domains] raises the lookup error of the first
    such domain and returns no mapping: the error is for the id when the id
    is missing, and for the name only when the id is there. *)
Theorem get_all_domains_malformed_item self w r c body front bad back :
  server (GET (base_url self +:+ "/businessdomains") (headers self)) (catalog w) = (r, c) →
  (status_code r < 400)%Z →
  json r = Some body →
  value body = Some (front ++ bad :: back) →
  Forall domain_item front →
  (bad !! "id" = None →
     (get_all_domains server self w).1 = Raise (KeyError "id")) ∧
  (is_Some (bad !! "id") → bad !! "name" = None →
     (get_all_domains server self w).1 = Raise (KeyError "name")).
Proof.
  intros Hr Hs Hjson Hvalue Hfront.
  rewrite (get_all_domains_below_400 _ _ _ _ Hr Hs), Hjson, Hvalue. simpl.
  rewrite collect_domains_app.
  destruct (collect_domains_total front ∅ w Hfront) as [D ->]. simpl.
  unfold bind, getitem. split.
  - intros ->. done.
  - intros [id ->] ->. done.
Qed.

(** *** Fetching one term *)

(** X4: [get_term] with a [term_id] that is not empty and no usable name
    sends one GET request for that id.  A 403 answer raises the permission
    error; any other status, a 404 included, is logged as a success and the
    parsed body is returned. *)
Theorem get_term_by_id self id term_name w r c :
  id ≠ EmptyString →
  truthy term_name = false →
  server (GET (base_url self +:+ "/terms/" +:+ id) (headers self)) (catalog w) = (r, c) →
  (status_code r = 403%Z →
     get_term server self (Some id) term_name w =
       (Raise (Exception permission_error),
        World c (trace w ++
          [Log INFO ("Fetching glossary term with ID: " +:+ id +:+ "...");
           Sent (GET (base_url self +:+ "/terms/" +:+ id) (headers self));
           Log ERROR "Permission error while fetching glossary term. Check Data Steward Role."]))) ∧
  (status_code r ≠ 403%Z →
     get_term server self (Some id) term_name w =
       (match json r with Some body => Ok (inl body) | None => Raise JSONDecodeError end,
        World c (trace w ++
          [Log INFO ("Fetching glossary term with ID: " +:+ id +:+ "...");
           Sent (GET (base_url self +:+ "/terms/" +:+ id) (headers self));
           Log INFO ("Successfully fetched glossary term [" +:+ id +:+ "].")]))).
Proof.
  intros Hid Hname Hr. destruct id as [|a id]; [done|].
  unfold get_term. rewrite Hname. cbn [truthy andb fstr]. run_m. rewrite Hr.
  split; intros Hs.
  - rewrite Hs. simpl. by flatten_trace.
  - apply Z.eqb_neq in Hs. rewrite Hs. simpl.
    destruct (json r); run_m; by flatten_trace.
Qed.

Lemma terms_named_filter (term_name : string) (all_terms : list dict) w :
  Forall (λ term, is_Some (term !! "name")) all_terms →
  terms_named term_name all_terms w =
    (Ok (filter (λ term, term !! "name" = Some term_name) all_terms), w).
Proof.
  induction 1 as [|term rest [n Hn] _ IH]; simpl; [done|].
  unfold bind, getitem. rewrite Hn. simpl. rewrite IH. unfold ret.
  rewrite filter_cons. rewrite Hn.
  case_bool_decide as Heq; case_decide as Heq'; try done.
  - subst. done.
  - injection Heq' as ->. done.
Qed.

(** X5: [get_term] with a name that is not empty and no usable id, on a
    listing (answered with a status other than 403) of terms that all have a
    name, returns exactly the listed terms whose name equals the given one,
    in listing order, all of them when several match; when none matches it
    raises the error that the term could not be found. *)
Theorem get_term_by_name self term_id name w r c listing all_terms :
  truthy term_id = false →
  name ≠ EmptyString →
  server (GET (base_url self +:+ "/terms") (headers self)) (catalog w) = (r, c) →
  status_code r ≠ 403%Z →
  json r = Some listing →
  value listing = Some all_terms →
  Forall (λ term, is_Some (term !! "name")) all_terms →
  (filter (λ term, term !! "name" = Some name) all_terms ≠ [] →
     get_term server self term_id (Some name) w =
       (Ok (inr (filter (λ term, term !! "name" = Some name) all_terms)),
        World c (trace w ++
          [Log INFO ("Fetching glossary term with name: " +:+ name +:+ "...");
           Log INFO "Fetching all glossary terms...";
           Sent (GET (base_url self +:+ "/terms") (headers self));
           Log INFO "Successfully fetched glossary terms.";
           Log INFO ("Successfully fetched glossary term [" +:+ name +:+ "].")]))) ∧
  (filter (λ term, term !! "name" = Some name) all_terms = [] →
     get_term server self term_id (Some name) w =
       (Raise (Exception ("The term [" +:+ name +:+ "] could not be found.")),
        World c (trace w ++
          [Log INFO ("Fetching glossary term with name: " +:+ name +:+ "...");
           Log INFO "Fetching all glossary terms...";
           Sent (GET (base_url self +:+ "/terms") (headers self));
           Log INFO "Successfully fetched glossary terms."]))).
Proof.
  intros Hid Hname Hr Hs Hjson Hvalue Hnames. destruct name as [|a name]; [done|].
  assert (get_term server self term_id (Some (String a name)) w =
    (let! found := terms_named (String a name) all_terms in
     match found with
     | _ :: _ =>
         run! logging_info ("Successfully fetched glossary term [" +:+ String a name +:+ "].") in
         ret (inr found)
     | [] => raise (Exception ("The term [" +:+ String a name +:+ "] could not be found."))
     end)
      (World c (trace w ++
         [Log INFO ("Fetching glossary term with name: " +:+ String a name +:+ "...");
          Log INFO "Fetching all glossary terms...";
          Sent (GET (base_url self +:+ "/terms") (headers self));
          Log INFO "Successfully fetched glossary terms."]))) as ->.
  { unfold get_term. rewrite Hid. cbn [truthy andb fstr].
    unfold bind at 1. unfold logging_info at 1. unfold bind at 1.
    rewrite (get_all_glossary_terms_not_403 server self
               (emit (Log INFO ("Fetching glossary term with name: " +:+ String a name +:+ "...")) w)
               r c Hr Hs).
    rewrite Hjson. unfold bind at 1. unfold getvalue. rewrite Hvalue. unfold ret at 1.
    by flatten_trace. }
  unfold bind. rewrite (terms_named_filter _ _ _ Hnames).
  destruct (filter _ all_terms) as [|term found] eqn:Hfound.
  - split; [done|]. intros _. by run_m.
  - split; [|done]. intros _. run_m. by flatten_trace.
Qed.

(** *** Creating a term *)

(** X6: when [__create_term] posts a term (domain resolved, term not
    listed), only a 403 answer is a failure: it raises the permission error
    that names the domain.  Any other status, a 400 or a 500 included, is
    logged as a successful creation and the parsed body is returned. *)
Theorem create_term_status self name description status domain id all_terms all_domains w r c :
  term_snapshot all_terms →
  all_domains !! domain = Some id →
  ¬ listed name id all_terms →
  server (POST (base_url self +:+ "/terms")
               (term_payload name description status id) (headers self)) (catalog w) = (r, c) →
  (status_code r = 403%Z →
     __create_term server self name description status domain all_terms all_domains w =
       (Raise (Exception ("Permission error. Check Data Steward Role on governance domain [" +:+
                          domain +:+ "].")),
        World c (trace w ++
          [Log INFO ("Creating glossary term: " +:+ name +:+ " under domain: " +:+ domain);
           Sent (POST (base_url self +:+ "/terms")
                      (term_payload name description status id) (headers self));
           Log WARNING ("Permission error while creating term: [" +:+ name +:+
                        "]. Check permissions for governance domain [" +:+ domain +:+ "].")]))) ∧
  (status_code r ≠ 403%Z → ∀ body, json r = Some body →
     __create_term server self name description status domain all_terms all_domains w =
       (Ok (Some body),
        World c (trace w ++
          [Log INFO ("Creating glossary term: " +:+ name +:+ " under domain: " +:+ domain);
           Sent (POST (base_url self +:+ "/terms")
                      (term_payload name description status id) (headers self));
           Log INFO ("Successfully created glossary term: [" +:+ name +:+ "] in the [" +:+
                     domain +:+ "] governance domain.")]))).
Proof.
  intros Hsnap Hdom Hl Hr.
  rewrite (create_term_posts server _ _ _ _ _ id) by done.
  rewrite (post_term_resolved server _ _ _ _ _ id _ _ r c) by done.
  split.
  - intros ->. done.
  - intros Hs body ->. apply Z.eqb_neq in Hs. by rewrite Hs.
Qed.

(** X7: [create_term] is [__create_term] on snapshots it fetches itself:
    once the terms and then the domains are fetched, it continues as the
    batch path does on those snapshots; and when either fetch raises, it
    raises the same error where the fetch stopped, before any check or
    create. *)
Theorem create_term_fetches_then_creates self name description status domain w :
  (∀ listing w1 all_terms all_domains w2,
     get_all_glossary_terms server self w = (Ok listing, w1) →
     value listing = Some all_terms →
     get_all_domains server self w1 = (Ok all_domains, w2) →
     create_term server self name description status domain w =
       __create_term server self name description status domain all_terms all_domains w2) ∧
  (∀ e w1,
     get_all_glossary_terms server self w = (Raise e, w1) →
     create_term server self name description status domain w = (Raise e, w1)) ∧
  (∀ listing w1 all_terms e w2,
     get_all_glossary_terms server self w = (Ok listing, w1) →
     value listing = Some all_terms →
     get_all_domains server self w1 = (Raise e, w2) →
     create_term server self name description status domain w = (Raise e, w2)).
Proof.
  unfold create_term, __create_term. repeat split.
  - intros listing w1 all_terms all_domains w2 Hlist Hval Hdoms.
    unfold bind at 1. rewrite Hlist. unfold bind at 1. unfold getvalue. rewrite Hval.
    unfold ret at 1. unfold bind at 1. by rewrite Hdoms.
  - intros e w1 Hlist. unfold bind at 1. by rewrite Hlist.
  - intros listing w1 all_terms e w2 Hlist Hval Hdoms.
    unfold bind at 1. rewrite Hlist. unfold bind at 1. unfold getvalue. rewrite Hval.
    unfold ret at 1. unfold bind at 1. by rewrite Hdoms.
Qed.

(** *** The batch loop *)

(** One turn of the loop on a record with its four fields. *)
Lemma upload_each_cons self term rest name description status domain all_terms all_domains w :
  term !! "name" = Some name →
  term !! "description" = Some description →
  term !! "status" = Some status →
  term !! "domain" = Some domain →
  upload_each server self (term :: rest) all_terms all_domains w =
    (run! __create_term server self name description status domain all_terms all_domains in
     upload_each server self rest all_terms all_domains)
      (emit (Log INFO ("Adding term: [" +:+ name +:+ "]...")) w).
Proof.
  intros Hn Hd Hs Hdom. simpl. unfold getitem. rewrite Hn, Hd, Hs, Hdom. by run_m.
Qed.

(** X8: a forbidden create stops the batch.  When the create request for
    a record is answered with 403, the upload raises the permission error for
    that record's domain at once: the trace ends with that request and its
    warning, and the records after it are not looked at. *)
Theorem upload_stops_at_forbidden_create self term rest name description status domain id
    all_terms all_domains w r c :
  term !! "name" = Some name →
  term !! "description" = Some description →
  term !! "status" = Some status →
  term !! "domain" = Some domain →
  term_snapshot all_terms →
  all_domains !! domain = Some id →
  ¬ listed name id all_terms →
  server (POST (base_url self +:+ "/terms")
               (term_payload name description status id) (headers self)) (catalog w) = (r, c) →
  status_code r = 403%Z →
  upload_each server self (term :: rest) all_terms all_domains w =
    (Raise (Exception ("Permission error. Check Data Steward Role on governance domain [" +:+
                       domain +:+ "].")),
     World c (trace w ++
       [Log INFO ("Adding term: [" +:+ name +:+ "]...");
        Log INFO ("Creating glossary term: " +:+ name +:+ " under domain: " +:+ domain);
        Sent (POST (base_url self +:+ "/terms")
                   (term_payload name description status id) (headers self));
        Log WARNING ("Permission error while creating term: [" +:+ name +:+
                     "]. Check permissions for governance domain [" +:+ domain +:+ "].")])).
Proof.
  intros Hn Hd Hst Hdomain Hsnap Hdom Hl Hr Hs.
  rewrite (upload_each_cons _ _ _ _ _ _ _ _ _ _ Hn Hd Hst Hdomain).
  unfold bind. rewrite (create_term_posts server _ _ _ _ _ id) by done.
  rewrite (post_term_resolved server _ _ _ _ _ id _ _ r c) by done.
  rewrite Hs. simpl. by flatten_trace.
Qed.

(** X9: a record without one of its four fields stops the batch with the
    lookup error of the first missing field, in the order name, description,
    status, domain, before anything is sent for it: without a name nothing is
    even logged, otherwise only the line that announces the record. *)
Theorem upload_record_missing_field self term rest all_terms all_domains w :
  (term !! "name" = None →
     upload_each server self (term :: rest) all_terms all_domains w
       = (Raise (KeyError "name"), w)) ∧
  (∀ name, term !! "name" = Some name →
     (term !! "description" = None →
        upload_each server self (term :: rest) all_terms all_domains w
          = (Raise (KeyError "description"),
             emit (Log INFO ("Adding term: [" +:+ name +:+ "]...")) w)) ∧
     (is_Some (term !! "description") → term !! "status" = None →
        upload_each server self (term :: rest) all_terms all_domains w
          = (Raise (KeyError "status"),
             emit (Log INFO ("Adding term: [" +:+ name +:+ "]...")) w)) ∧
     (is_Some (term !! "description") → is_Some (term !! "status") →
      term !! "domain" = None →
        upload_each server self (term :: rest) all_terms all_domains w
          = (Raise (KeyError "domain"),
             emit (Log INFO ("Adding term: [" +:+ name +:+ "]...")) w))).
Proof.
  split.
  - intros Hn. simpl. unfold bind, getitem. by rewrite Hn.
  - intros name Hn. simpl. unfold getitem. rewrite Hn. repeat split.
    + intros ->. by run_m.
    + intros [d ->] ->. by run_m.
    + intros [d ->] [s ->] ->. by run_m.
Qed.

Lemma is_listed_spec name id (all_terms : list dict) :
  is_listed name id all_terms = true ↔ listed name id all_terms.
Proof.
  unfold is_listed, listed. rewrite bool_decide_eq_true, Exists_exists. done.
Qed.

Lemma is_listed_false name id (all_terms : list dict) :
  is_listed name id all_terms = false ↔ ¬ listed name id all_terms.
Proof. rewrite <- is_listed_spec. by destruct (is_listed name id all_terms). Qed.

(** The loop over records that are all listed: each is skipped. *)
Lemma upload_each_all_listed self terms all_terms all_domains w :
  term_snapshot all_terms →
  Forall term_record terms →
  Forall (λ term, already_listed all_terms all_domains term = true) terms →
  ∃ w', upload_each server self terms all_terms all_domains w = (Ok tt, w') ∧
        sent (trace w') = sent (trace w) ∧ catalog w' = catalog w.
Proof.
  intros Hsnap Hrec. revert w.
  induction Hrec as [|term rest ([n Hn] & [d Hd] & [s Hs] & [dom Hdom]) _ IH]; intros w Hall.
  - by exists w.
  - apply Forall_cons in Hall as [Hlisted Hall].
    unfold already_listed in Hlisted. rewrite Hn, Hdom in Hlisted.
    destruct (all_domains !! dom) as [id|] eqn:Hid; [|done].
    apply is_listed_spec in Hlisted.
    rewrite (upload_each_cons _ _ _ _ _ _ _ _ _ _ Hn Hd Hs Hdom). unfold bind at 1.
    rewrite (create_term_skips server _ _ _ _ _ id) by done.
    destruct (IH (emit (Log INFO (skip_message n dom))
                    (emit (Log INFO ("Adding term: [" +:+ n +:+ "]...")) w)) Hall)
      as (w' & -> & Hsent & Hcat).
    exists w'. split; [done|]. rewrite Hsent, Hcat. simpl.
    rewrite !sent_app. simpl. by rewrite !app_nil_r.
Qed.

(** X10: on a catalog that already lists every record of the batch (each
    record has its four fields and its name is listed under the id of its
    domain), [upload_glossary_terms] returns, and after fetching the terms
    and the domains it sends nothing more and leaves the catalog as the
    fetches left it.  The empty batch is the special case. *)
Theorem upload_all_listed self terms w listing w1 all_terms all_domains w2 :
  get_all_glossary_terms server self w = (Ok listing, w1) →
  value listing = Some all_terms →
  get_all_domains server self w1 = (Ok all_domains, w2) →
  term_snapshot all_terms →
  Forall term_record terms →
  Forall (λ term, already_listed all_terms all_domains term = true) terms →
  ∃ w', upload_glossary_terms server self terms w = (Ok tt, w') ∧
        sent (trace w') = sent (trace w2) ∧ catalog w' = catalog w2.
Proof.
  intros Hlist Hval Hdoms Hsnap Hrec Hall. unfold upload_glossary_terms.
  unfold bind at 1. rewrite Hlist. unfold bind at 1. unfold getvalue. rewrite Hval.
  unfold ret at 1. unfold bind at 1. rewrite Hdoms.
  by apply upload_each_all_listed.
Qed.

Lemma omap_cons_Some {A B} (f : A → option B) (x : A) (l : list A) (y : B) :
  f x = Some y → omap f (x :: l) = y :: omap f l.
Proof. intros H. simpl. by rewrite H. Qed.

(** What a returned run of the loop has created: one request for each
    record that was not listed, in the order of the batch. *)
Lemma upload_each_creates self terms all_terms all_domains w w' :
  term_snapshot all_terms →
  upload_each server self terms all_terms all_domains w = (Ok tt, w') →
  creates (trace w') =
    creates (trace w) ++
    omap (create_for self all_domains)
         (filter (λ term, already_listed all_terms all_domains term = false) terms).
Proof.
  intros Hsnap. revert w. induction terms as [|term rest IH]; intros w; simpl.
  - intros [= <-]. by rewrite app_nil_r.
  - intros (shown & w1 & [Hshown ->]%getitem_ok_inv & Hrun)%bind_ok_inv.
    apply bind_ok_inv in Hrun as ([] & w2 & Hlog & Hrun).
    injection Hlog as <-.
    apply bind_ok_inv in Hrun as (name & ? & [Hname ->]%getitem_ok_inv & Hrun).
    apply bind_ok_inv in Hrun as (description & ? & [Hdesc ->]%getitem_ok_inv & Hrun).
    apply bind_ok_inv in Hrun as (status & ? & [Hstatus ->]%getitem_ok_inv & Hrun).
    apply bind_ok_inv in Hrun as (domain & ? & [Hdomain ->]%getitem_ok_inv & Hrun).
    apply bind_ok_inv in Hrun as (res & w3 & Hcreate & Hrun).
    assert (shown = name) as -> by congruence.
    rewrite (IH _ Hrun). rewrite filter_cons.
    apply create_term_ok_inv in Hcreate
      as [[Hfound ->] | [Hfound (id & r & c & lg & Hdom & Hr & Hs & ->)]].
    + (* skipped *)
      destruct (all_domains !! domain) as [id|] eqn:Hdom.
      * destruct (check_resolved name domain id all_terms all_domains
                    (emit (Log INFO ("Adding term: [" +:+ name +:+ "]...")) w) Hsnap Hdom)
          as (b & Hb & Hiff).
        rewrite Hfound in Hb. injection Hb as <-.
        assert (already_listed all_terms all_domains term = true) as ->.
        { unfold already_listed. rewrite Hname, Hdomain, Hdom. by apply is_listed_spec, Hiff. }
        case_decide; [done|]. simpl. rewrite !creates_app. simpl. by rewrite !app_nil_r.
      * destruct (check_unresolved_outcome name domain all_terms all_domains
                    (emit (Log INFO ("Adding term: [" +:+ name +:+ "]...")) w) Hdom)
          as [Hno | [k Hk]]; congruence.
    + (* created *)
      destruct (check_resolved name domain id all_terms all_domains
                  (emit (Log INFO ("Adding term: [" +:+ name +:+ "]...")) w) Hsnap Hdom)
        as (b & Hb & Hiff).
      rewrite Hfound in Hb. injection Hb as <-.
      assert (already_listed all_terms all_domains term = false) as ->.
      { unfold already_listed. rewrite Hname, Hdomain, Hdom.
        apply is_listed_false. intros Hl. by apply Hiff in Hl. }
      case_decide; [|done].
      assert (create_for self all_domains term =
                Some (POST (base_url self +:+ "/terms")
                           (term_payload name description status id) (headers self))) as Hfor.
      { unfold create_for. rewrite Hname, Hdesc, Hstatus, Hdomain. simpl. by rewrite Hdom. }
      rewrite (omap_cons_Some _ _ _ _ Hfor).
      simpl. rewrite !creates_app. simpl. rewrite !app_nil_r. by rewrite <- app_assoc.
Qed.

(** X11: what a returned upload has created.  On a terms snapshot, the
    create requests of a run of [upload_glossary_terms] that returned are,
    in the order of the batch, one for each record whose name was not listed
    under the id of its domain, with that record's name, description and
    status and the resolved id, and no other. *)
Theorem upload_creates_in_order self terms w listing w1 all_terms all_domains w2 w3 :
  get_all_glossary_terms server self w = (Ok listing, w1) →
  value listing = Some all_terms →
  get_all_domains server self w1 = (Ok all_domains, w2) →
  term_snapshot all_terms →
  upload_glossary_terms server self terms w = (Ok tt, w3) →
  creates (trace w3) =
    creates (trace w) ++
    omap (create_for self all_domains)
         (filter (λ term, already_listed all_terms all_domains term = false) terms).
Proof.
  intros Hlist Hval Hdoms Hsnap. unfold upload_glossary_terms.
  unfold bind at 1. rewrite Hlist. unfold bind at 1. unfold getvalue. rewrite Hval.
  unfold ret at 1. unfold bind at 1. rewrite Hdoms. intros Hloop.
  rewrite (upload_each_creates _ _ _ _ _ _ Hsnap Hloop).
  apply (get_all_domains_creates server) in Hdoms as [-> _].
  by rewrite (get_all_glossary_terms_creates server _ _ _ _ Hlist).
Qed.

(** *** What the batch upload and the delete-all may send *)

Lemma sends_only_ret {A} (allowed : request → Prop) (a : A) :
  sends_only (remote:=remote) allowed (ret a).
Proof. intros w. exists []. simpl. by rewrite app_nil_r. Qed.

Lemma sends_only_raise {A} (allowed : request → Prop) (e : exn) :
  sends_only (remote:=remote) (A:=A) allowed (raise e).
Proof. intros w. exists []. simpl. by rewrite app_nil_r. Qed.

Lemma sends_only_bind {A B} (allowed : request → Prop) (m : M remote A) (k : A → M remote B) :
  sends_only allowed m → (∀ a, sends_only allowed (k a)) → sends_only allowed (bind m k).
Proof.
  intros Hm Hk w. unfold bind. destruct (Hm w) as (evs & Ht & Hs).
  destruct (m w) as [[a|e] w1]; simpl in *.
  - destruct (Hk a w1) as (evs' & Ht' & Hs'). exists (evs ++ evs').
    rewrite Ht', Ht, app_assoc. split; [done|].
    unfold sent. rewrite omap_app. by apply Forall_app.
  - by exists evs.
Qed.

Lemma sends_only_info (allowed : request → Prop) msg :
  sends_only (remote:=remote) allowed (logging_info msg).
Proof. intros w. by exists [Log INFO msg]. Qed.

Lemma sends_only_warn (allowed : request → Prop) msg :
  sends_only (remote:=remote) allowed (logging_warn msg).
Proof. intros w. by exists [Log WARNING msg]. Qed.

Lemma sends_only_error (allowed : request → Prop) msg :
  sends_only (remote:=remote) allowed (logging_error msg).
Proof. intros w. by exists [Log ERROR msg]. Qed.

Lemma sends_only_getitem (allowed : request → Prop) (d : dict) k :
  sends_only (remote:=remote) allowed (getitem d k).
Proof.
  unfold getitem. destruct (d !! k); [apply sends_only_ret | apply sends_only_raise].
Qed.

Lemma sends_only_getvalue (allowed : request → Prop) body :
  sends_only (remote:=remote) allowed (getvalue body).
Proof.
  unfold getvalue. destruct (value body); [apply sends_only_ret | apply sends_only_raise].
Qed.

Lemma sends_only_json (allowed : request → Prop) r :
  sends_only (remote:=remote) allowed (response_json r).
Proof.
  unfold response_json. destruct (json r); [apply sends_only_ret | apply sends_only_raise].
Qed.

Lemma sends_only_send (allowed : request → Prop) req :
  allowed req → sends_only allowed (send server req).
Proof.
  intros Hreq w. unfold send. destruct (server req (catalog w)) as [r c]. simpl.
  exists [Sent req]. split; [done|]. by constructor.
Qed.

Ltac sends_only_step :=
  first
    [ apply sends_only_ret | apply sends_only_raise
    | apply sends_only_info | apply sends_only_warn | apply sends_only_error
    | apply sends_only_getitem | apply sends_only_getvalue | apply sends_only_json
    | apply sends_only_bind; [|intros ?] ].

Lemma sends_only_get_all_glossary_terms (allowed : request → Prop) self :
  allowed (GET (base_url self +:+ "/terms") (headers self)) →
  sends_only allowed (get_all_glossary_terms server self).
Proof.
  intros Hget. unfold get_all_glossary_terms, requests_get.
  apply sends_only_bind; [sends_only_step|intros _].
  apply sends_only_bind; [by apply sends_only_send|intros r].
  destruct (status_code r =? 403)%Z; repeat sends_only_step.
Qed.

Lemma sends_only_collect_domains (allowed : request → Prop) items domains :
  sends_only (remote:=remote) allowed (collect_domains items domains).
Proof.
  revert domains. induction items as [|item rest IH]; intros domains; simpl.
  - apply sends_only_ret.
  - repeat sends_only_step. apply IH.
Qed.

Lemma sends_only_get_all_domains (allowed : request → Prop) self :
  allowed (GET (base_url self +:+ "/businessdomains") (headers self)) →
  sends_only allowed (get_all_domains server self).
Proof.
  intros Hget. unfold get_all_domains, requests_get.
  apply sends_only_bind; [sends_only_step|intros _].
  apply sends_only_bind; [by apply sends_only_send|intros r].
  destruct (400 <=? status_code r)%Z; repeat sends_only_step.
  apply sends_only_collect_domains.
Qed.

Lemma sends_only_check (allowed : request → Prop) name domain all_terms all_domains :
  sends_only (remote:=remote) allowed
    (__check_term_exists name domain all_terms all_domains).
Proof.
  induction all_terms as [|item rest IH]; simpl.
  - apply sends_only_ret.
  - apply sends_only_bind; [sends_only_step|intros n].
    case_bool_decide; [|done].
    apply sends_only_bind; [sends_only_step|intros d].
    apply sends_only_bind; [sends_only_step|intros id].
    case_bool_decide; [apply sends_only_ret | done].
Qed.

Lemma sends_only_create_term self name description status domain all_terms all_domains :
  sends_only (upload_request self)
    (__create_term server self name description status domain all_terms all_domains).
Proof.
  unfold __create_term.
  apply sends_only_bind; [apply sends_only_check|intros found].
  destruct found; [repeat sends_only_step|].
  unfold post_term, requests_post.
  apply sends_only_bind; [sends_only_step|intros id].
  apply sends_only_bind; [sends_only_step|intros _].
  apply sends_only_bind; [apply sends_only_send; right; right; by eexists|intros r].
  apply sends_only_bind; [|intros _; repeat sends_only_step].
  destruct (status_code r =? 403)%Z; repeat sends_only_step.
Qed.

Lemma sends_only_upload_each self terms all_terms all_domains :
  sends_only (upload_request self) (upload_each server self terms all_terms all_domains).
Proof.
  induction terms as [|term rest IH]; simpl.
  - apply sends_only_ret.
  - repeat (apply sends_only_bind; [first [apply sends_only_create_term | sends_only_step]
                                   |intros ?]).
    apply IH.
Qed.

(** X12: whatever the batch, the catalog's answers and the outcome,
    [upload_glossary_terms] only adds to the trace and sends nothing but the
    listing of the terms, the listing of the domains and create requests to
    the terms collection, all with the manager's headers: it never deletes. *)
Theorem upload_sends_only self terms w :
  ∃ evs,
    trace (upload_glossary_terms server self terms w).2 = trace w ++ evs ∧
    Forall (upload_request self) (sent evs) ∧
    ∀ url hdrs, DELETE url hdrs ∉ sent evs.
Proof.
  assert (sends_only (upload_request self) (upload_glossary_terms server self terms)) as H.
  { unfold upload_glossary_terms.
    apply sends_only_bind;
      [apply sends_only_get_all_glossary_terms; by left | intros listing].
    apply sends_only_bind; [sends_only_step | intros all_terms].
    apply sends_only_bind;
      [apply sends_only_get_all_domains; right; by left | intros all_domains].
    apply sends_only_upload_each. }
  destruct (H w) as (evs & Ht & Hs). exists evs. split; [done|]. split; [done|].
  intros url hdrs Hin. rewrite Forall_forall in Hs.
  destruct (Hs _ Hin) as [? | [? | [? ?]]]; discriminate.
Qed.

(** *** Deleting all terms *)

(** X13: with nothing to delete, [delete_all_glossary_term] sends the
    listing request only.  A listing answered with 403 raises the permission
    error, a body without the collection raises the lookup error for it, and
    an empty collection makes the call return. *)
Theorem delete_all_nothing_to_delete self w r c :
  server (GET (base_url self +:+ "/terms") (headers self)) (catalog w) = (r, c) →
  (status_code r = 403%Z →
     ∃ w', delete_all_glossary_term server self w = (Raise (Exception permission_error), w') ∧
           sent (trace w') = sent (trace w) ++ [GET (base_url self +:+ "/terms") (headers self)]) ∧
  (status_code r ≠ 403%Z → ∀ body, json r = Some body →
     ∃ w', sent (trace w') = sent (trace w) ++ [GET (base_url self +:+ "/terms") (headers self)] ∧
           (value body = None →
              delete_all_glossary_term server self w = (Raise (KeyError "value"), w')) ∧
           (value body = Some [] →
              delete_all_glossary_term server self w = (Ok tt, w'))).
Proof.
  intros Hr. split.
  - intros Hs. unfold delete_all_glossary_term, bind.
    rewrite (get_all_glossary_terms_403 server _ _ _ _ Hr Hs).
    eexists. split; [done|]. simpl. rewrite sent_app. done.
  - intros Hs body Hbody.
    assert (delete_all_glossary_term server self w =
              (let! listed := getvalue body in delete_each server self listed)
                (World c (trace w ++
                   [Log INFO "Fetching all glossary terms...";
                    Sent (GET (base_url self +:+ "/terms") (headers self));
                    Log INFO "Successfully fetched glossary terms."]))) as ->.
    { unfold delete_all_glossary_term. unfold bind at 1.
      by rewrite (get_all_glossary_terms_not_403 server _ _ _ _ Hr Hs), Hbody. }
    eexists. split; [|split; intros Hv; unfold bind, getvalue; rewrite Hv; reflexivity].
    simpl. rewrite sent_app. done.
Qed.

Lemma delete_each_app self (l1 l2 : list dict) w :
  delete_each server self (l1 ++ l2) w =
    match delete_each server self l1 w with
    | (Ok _, w') => delete_each server self l2 w'
    | other => other
    end.
Proof.
  revert w. induction l1 as [|term rest IH]; intros w; simpl; [done|].
  unfold bind. destruct (getitem term "id" w) as [[id|e] w1]; [|done].
  destruct (delete_glossary_term server self id w1) as [[st|e] w2]; [|done].
  destruct (st =? 204)%Z; destruct (getitem term "name" w2) as [[nm|e] w3];
    try done; run_m; apply IH.
Qed.

(** X14: a listed term that cannot be read stops the delete-all part way.
    The terms before it are deleted.  If the term has no id, the lookup error
    for the id is raised and no request is sent for it; if it has an id but
    no name, its delete request is sent and only then is the lookup error for
    the name raised, while reporting on it.  The terms after it are not
    touched. *)
Theorem delete_all_stops_at_unreadable_term self w listing w1 front bad back ids :
  get_all_glossary_terms server self w = (Ok listing, w1) →
  value listing = Some (front ++ bad :: back) →
  Forall2 (λ term id, term !! "id" = Some id) front ids →
  Forall (λ term, is_Some (term !! "name")) front →
  (bad !! "id" = None →
     ∃ w2, delete_all_glossary_term server self w = (Raise (KeyError "id"), w2) ∧
           sent (trace w2) = sent (trace w1) ++
             ((λ id, DELETE (base_url self +:+ "/terms/" +:+ id) (headers self)) <$> ids)) ∧
  (∀ id, bad !! "id" = Some id → bad !! "name" = None →
     ∃ w2, delete_all_glossary_term server self w = (Raise (KeyError "name"), w2) ∧
           sent (trace w2) = sent (trace w1) ++
             ((λ id, DELETE (base_url self +:+ "/terms/" +:+ id) (headers self))
                <$> (ids ++ [id]))).
Proof.
  intros Hlist Hval Hids Hnames.
  assert (delete_all_glossary_term server self w =
            delete_each server self (front ++ bad :: back) w1) as ->.
  { unfold delete_all_glossary_term. unfold bind at 1. rewrite Hlist.
    unfold bind at 1. unfold getvalue. by rewrite Hval. }
  rewrite delete_each_app.
  destruct (delete_each_sent server self front ids w1 Hids Hnames) as (w2 & -> & Hsent).
  simpl. split.
  - intros Hid. exists w2. split; [|done]. unfold bind, getitem. by rewrite Hid.
  - intros id Hid Hname. unfold bind at 1. unfold getitem at 1. rewrite Hid. unfold ret at 1.
    destruct (delete_glossary_term_sent server self id w2) as (st & w3 & Hdel & Hsent3).
    unfold bind at 1. rewrite Hdel. unfold bind at 1.
    eexists. split.
    + destruct (st =? 204)%Z; unfold bind, getitem; rewrite Hname; reflexivity.
    + rewrite Hsent3, Hsent, fmap_app. simpl. by rewrite <- app_assoc.
Qed.

(** *** The existence check and the snapshot *)

(** X15: the check reads the snapshot front to back and stops at the
    first match or error.  Unless its outcome on a snapshot is false, the
    outcome is the same on every snapshot that extends it at the back: a
    term found stays found whatever is listed after it. *)
Theorem check_term_exists_extend name domain (all_terms more : list dict) (all_domains : dict) w :
  __check_term_exists name domain all_terms all_domains w ≠ (Ok false, w) →
  __check_term_exists name domain (all_terms ++ more) all_domains w =
    __check_term_exists name domain all_terms all_domains w.
Proof.
  intros Hne. rewrite check_app.
  destruct (check_term_exists_pure (remote:=remote) name domain all_terms all_domains)
    as [r Hr].
  rewrite Hr in *. by destruct r as [[]|].
Qed.

(** X16: the check knows a domain by its id only.  Two domain names, in
    the same mapping or in two, that resolve to the same id give the same
    outcome on every snapshot. *)
Theorem check_term_exists_same_id name d1 d2 id (all_terms : list dict) (D1 D2 : dict) w :
  D1 !! d1 = Some id →
  D2 !! d2 = Some id →
  __check_term_exists name d1 all_terms D1 w = __check_term_exists name d2 all_terms D2 w.
Proof.
  intros H1 H2. induction all_terms as [|item rest IH]; simpl; [done|].
  unfold bind, getitem. destruct (item !! "name") as [n|]; simpl; [|done].
  case_bool_decide; [|done].
  destruct (item !! "domain") as [d|]; simpl; [|done].
  rewrite H1, H2. simpl. by case_bool_decide.
Qed.

Lemma sends_only_delete_glossary_term self term_id :
  sends_only (delete_all_request self) (delete_glossary_term server self term_id).
Proof.
  unfold delete_glossary_term, requests_delete.
  apply sends_only_bind; [sends_only_step|intros _].
  apply sends_only_bind; [apply sends_only_send; right; by eexists|intros r].
  apply sends_only_bind; [|intros _; sends_only_step].
  destruct (status_code r =? 204)%Z; [sends_only_step|].
  destruct (status_code r =? 403)%Z; sends_only_step.
Qed.

Lemma sends_only_delete_each self terms :
  sends_only (delete_all_request self) (delete_each server self terms).
Proof.
  induction terms as [|term rest IH]; simpl.
  - apply sends_only_ret.
  - apply sends_only_bind; [sends_only_step|intros id].
    apply sends_only_bind; [apply sends_only_delete_glossary_term|intros st].
    apply sends_only_bind; [|intros _; apply IH].
    destruct (st =? 204)%Z; repeat sends_only_step.
Qed.

(** X17: whatever the catalog answers and however it ends,
    [delete_all_glossary_term] only adds to the trace and sends nothing but
    the listing of the terms and delete requests for single terms, with the
    manager's headers: it never creates a term. *)
Theorem delete_all_sends_only self w :
  ∃ evs,
    trace (delete_all_glossary_term server self w).2 = trace w ++ evs ∧
    Forall (delete_all_request self) (sent evs) ∧
    creates evs = [].
Proof.
  assert (sends_only (delete_all_request self) (delete_all_glossary_term server self)) as H.
  { unfold delete_all_glossary_term.
    apply sends_only_bind;
      [apply sends_only_get_all_glossary_terms; by left | intros listing].
    apply sends_only_bind; [sends_only_step | intros listed].
    apply sends_only_delete_each. }
  destruct (H w) as (evs & Ht & Hs). exists evs. split; [done|]. split; [done|].
  clear Ht. induction evs as [|ev evs IH]; [done|].
  destruct ev as [lvl msg|req]; simpl in *; [by apply IH|].
  apply Forall_cons in Hs as [Hreq Hs]. specialize (IH Hs).
  destruct Hreq as [-> | [id ->]]; simpl; exact IH.
Qed.

Lemma string_app_assoc (a b c : string) : (a +:+ b) +:+ c = a +:+ b +:+ c.
Proof.
  induction a as [|x a IH]; [done|].
  change (String x ((a +:+ b) +:+ c) = String x (a +:+ b +:+ c)). by rewrite IH.
Qed.

(** X18: a manager stays on its tenant.  Constructing the manager sends
    nothing, and every request a batch upload of the constructed manager
    sends goes to a URL under
    [https://<tenant>-api.purview-service.microsoft.com/datagovernance/catalog]
    and carries exactly the headers given at construction. *)
Theorem manager_stays_on_tenant tok tenant (hdrs : dict) terms w :
  ∃ self w1,
    __init__ tok tenant hdrs w = (Ok self, w1) ∧
    sent (trace w1) = sent (trace w) ∧ catalog w1 = catalog w ∧
    ∃ evs,
      trace (upload_glossary_terms server self terms w1).2 = trace w1 ++ evs ∧
      Forall (λ req,
                request_headers req = hdrs ∧
                ∃ path, request_url req =
                  "https://" +:+ tenant +:+
                  "-api.purview-service.microsoft.com/datagovernance/catalog" +:+ path)
             (sent evs).
Proof.
  eexists _, _. split; [reflexivity|]. simpl.
  split; [rewrite sent_app; simpl; by rewrite app_nil_r|]. split; [done|].
  match goal with |- context [upload_glossary_terms server ?m terms ?w0] =>
    set (self := m); set (w1 := w0) end.
  assert (sends_only (upload_request self) (upload_glossary_terms server self terms)) as H.
  { unfold upload_glossary_terms.
    apply sends_only_bind;
      [apply sends_only_get_all_glossary_terms; by left | intros listing].
    apply sends_only_bind; [sends_only_step | intros all_terms].
    apply sends_only_bind;
      [apply sends_only_get_all_domains; right; by left | intros all_domains].
    apply sends_only_upload_each. }
  destruct (H w1) as (evs & Ht & Hs). exists evs. split; [exact Ht|].
  eapply Forall_impl; [exact Hs|]. subst self.
  intros req [-> | [-> | [payload ->]]]; cbn [request_headers request_url headers base_url];
    (split; [done|]); eexists; rewrite !string_app_assoc; reflexivity.
Qed.

End Further.

(** ** The further properties on concrete runs *)

(** Two listed domains of the same name: the later id is the one kept. *)
Example later_domain_overrides :
  (get_all_domains scripted contoso (World [listing finance_twice] [])).1
    = Ok {[ "Finance" := "dom-123" ]}.
Proof. vm_compute. reflexivity. Qed.

Lemma get_all_domains_permission_iff_witness :
  ((get_all_domains scripted contoso (World [Response 404 None] [])).1
     = Raise (Exception permission_error) ↔ (400 ≤ 404)%Z) ∧
  sent (trace (get_all_domains scripted contoso (World [Response 404 None] [])).2) =
    sent [] ++ [GET (base_url contoso +:+ "/businessdomains") (headers contoso)].
Proof.
  exact (get_all_domains_permission_iff scripted contoso (World [Response 404 None] [])
           (Response 404 None) [] eq_refl).
Defined.

Lemma domain_items_finance_twice : Forall domain_item finance_twice.
Proof. repeat constructor; eexists; vm_compute; reflexivity. Defined.

Lemma get_all_domains_last_wins_witness :
  Forall domain_item finance_twice ∧
  ∃ D w',
    get_all_domains scripted contoso (World [listing finance_twice] []) = (Ok D, w') ∧
    ∀ name id,
      D !! name = Some id ↔
      ∃ front item back,
        finance_twice = front ++ item :: back ∧
        item !! "name" = Some name ∧ item !! "id" = Some id ∧
        Forall (λ later, later !! "name" ≠ Some name) back.
Proof.
  split; [exact domain_items_finance_twice|].
  refine (get_all_domains_last_wins scripted contoso (World [listing finance_twice] [])
            (listing finance_twice) [] (Document ∅ (Some finance_twice)) finance_twice
            eq_refl _ eq_refl eq_refl domain_items_finance_twice).
  reflexivity.
Defined.

Lemma get_all_domains_malformed_item_witness :
  idless !! "id" = None ∧
  (get_all_domains scripted contoso (World [listing (finance ++ idless :: [])] [])).1
    = Raise (KeyError "id").
Proof.
  assert (idless !! "id" = None) as Hid by reflexivity.
  assert (Forall domain_item finance) as Hfront
    by (repeat constructor; eexists; vm_compute; reflexivity).
  split; [exact Hid|].
  refine (proj1 (get_all_domains_malformed_item scripted contoso
                   (World [listing (finance ++ idless :: [])] [])
                   (listing (finance ++ idless :: [])) []
                   (Document ∅ (Some (finance ++ idless :: []))) finance idless []
                   eq_refl _ eq_refl eq_refl Hfront) Hid).
  reflexivity.
Defined.

Lemma get_term_by_id_witness :
  get_term scripted contoso (Some "t-1") None
      (World [Response 404 (Some (Document ∅ None))] []) =
    (Ok (inl (Document ∅ None)),
     World []
       ([] ++
        [Log INFO ("Fetching glossary term with ID: " +:+ "t-1" +:+ "...");
         Sent (GET (base_url contoso +:+ "/terms/" +:+ "t-1") (headers contoso));
         Log INFO ("Successfully fetched glossary term [" +:+ "t-1" +:+ "].")])).
Proof.
  refine (proj2 (get_term_by_id scripted contoso "t-1" None
                   (World [Response 404 (Some (Document ∅ None))] [])
                   (Response 404 (Some (Document ∅ None))) [] _ eq_refl eq_refl) _).
  - discriminate.
  - simpl. lia.
Defined.

Lemma get_term_by_name_witness :
  filter (λ term : dict, term !! "name" = Some "Revenue") [revenue_listed; margin_listed] ≠ [] ∧
  get_term scripted contoso None (Some "Revenue")
      (World [listing [revenue_listed; margin_listed]] []) =
    (Ok (inr (filter (λ term : dict, term !! "name" = Some "Revenue")
                     [revenue_listed; margin_listed])),
     World []
       ([] ++
        [Log INFO ("Fetching glossary term with name: " +:+ "Revenue" +:+ "...");
         Log INFO "Fetching all glossary terms...";
         Sent (GET (base_url contoso +:+ "/terms") (headers contoso));
         Log INFO "Successfully fetched glossary terms.";
         Log INFO ("Successfully fetched glossary term [" +:+ "Revenue" +:+ "].")])).
Proof.
  assert (filter (λ term : dict, term !! "name" = Some "Revenue")
            [revenue_listed; margin_listed] ≠ []) as Hfound by (vm_compute; discriminate).
  split; [exact Hfound|].
  refine (proj1 (get_term_by_name scripted contoso None "Revenue"
                   (World [listing [revenue_listed; margin_listed]] [])
                   (listing [revenue_listed; margin_listed]) []
                   (Document ∅ (Some [revenue_listed; margin_listed]))
                   [revenue_listed; margin_listed]
                   eq_refl _ eq_refl _ eq_refl eq_refl _) Hfound).
  - discriminate.
  - simpl. lia.
  - repeat constructor; eexists; vm_compute; reflexivity.
Defined.

Lemma create_term_status_witness :
  __create_term scripted contoso "Revenue" "Money earned" "Draft" "Finance" [] finance_ids
      (World [Response 500 (Some (Document ∅ None))] []) =
    (Ok (Some (Document ∅ None)),
     World []
       ([] ++
        [Log INFO ("Creating glossary term: " +:+ "Revenue" +:+ " under domain: " +:+ "Finance");
         Sent (POST (base_url contoso +:+ "/terms")
                    (term_payload "Revenue" "Money earned" "Draft" "dom-123")
                    (headers contoso));
         Log INFO ("Successfully created glossary term: [" +:+ "Revenue" +:+ "] in the [" +:+
                   "Finance" +:+ "] governance domain.")])).
Proof.
  assert (finance_ids !! "Finance" = Some "dom-123") as Hdom by (vm_compute; reflexivity).
  refine (proj2 (create_term_status scripted contoso "Revenue" "Money earned" "Draft"
                   "Finance" "dom-123" [] finance_ids
                   (World [Response 500 (Some (Document ∅ None))] [])
                   (Response 500 (Some (Document ∅ None))) []
                   _ Hdom (listed_nil "Revenue" "dom-123") eq_refl) _ _ eq_refl).
  - constructor.
  - simpl. lia.
Defined.

Lemma create_term_fetches_then_creates_witness :
  create_term (small_catalog []) contoso "Revenue" "Money earned" "Draft" "Finance" revenue_held =
    __create_term (small_catalog []) contoso "Revenue" "Money earned" "Draft" "Finance"
      [revenue_listed] ∅ domains_fetched.
Proof.
  assert (get_all_glossary_terms (small_catalog []) contoso revenue_held
            = (Ok (Document ∅ (Some [revenue_listed])), terms_fetched)) as Hlist
    by (vm_compute; reflexivity).
  assert (get_all_domains (small_catalog []) contoso terms_fetched = (Ok ∅, domains_fetched))
    as Hdoms by (vm_compute; reflexivity).
  exact (proj1 (create_term_fetches_then_creates (small_catalog []) contoso
                  "Revenue" "Money earned" "Draft" "Finance" revenue_held)
           (Document ∅ (Some [revenue_listed])) terms_fetched [revenue_listed] ∅
           domains_fetched Hlist eq_refl Hdoms).
Defined.

Lemma upload_stops_at_forbidden_create_witness :
  upload_each scripted contoso (revenue :: [margin]) [] finance_ids
      (World [Response 403 None] []) =
    (Raise (Exception ("Permission error. Check Data Steward Role on governance domain [" +:+
                       "Finance" +:+ "].")),
     World []
       ([] ++
        [Log INFO ("Adding term: [" +:+ "Revenue" +:+ "]...");
         Log INFO ("Creating glossary term: " +:+ "Revenue" +:+ " under domain: " +:+ "Finance");
         Sent (POST (base_url contoso +:+ "/terms")
                    (term_payload "Revenue" "Money earned" "Draft" "dom-123")
                    (headers contoso));
         Log WARNING ("Permission error while creating term: [" +:+ "Revenue" +:+
                      "]. Check permissions for governance domain [" +:+ "Finance" +:+ "].")])).
Proof.
  refine (upload_stops_at_forbidden_create scripted contoso revenue [margin]
            "Revenue" "Money earned" "Draft" "Finance" "dom-123" [] finance_ids
            (World [Response 403 None] []) (Response 403 None) []
            _ _ _ _ _ _ (listed_nil "Revenue" "dom-123") eq_refl eq_refl);
    try (vm_compute; reflexivity).
  constructor.
Defined.

Lemma upload_record_missing_field_witness :
  idless !! "name" = Some "HR" ∧
  idless !! "description" = None ∧
  upload_each scripted contoso (idless :: [revenue]) [] finance_ids (World [] []) =
    (Raise (KeyError "description"),
     emit (Log INFO ("Adding term: [" +:+ "HR" +:+ "]...")) (World [] [])).
Proof.
  assert (idless !! "name" = Some "HR") as Hname by (vm_compute; reflexivity).
  assert (idless !! "description" = None) as Hdesc by (vm_compute; reflexivity).
  split; [exact Hname|]. split; [exact Hdesc|].
  exact (proj1 (proj2 (upload_record_missing_field scripted contoso idless [revenue] []
                         finance_ids (World [] [])) "HR" Hname) Hdesc).
Defined.

Lemma held_fetches :
  get_all_glossary_terms (small_catalog finance) contoso revenue_held
    = (Ok (Document ∅ (Some [revenue_listed])), held_terms_fetched) ∧
  get_all_domains (small_catalog finance) contoso held_terms_fetched
    = (Ok finance_ids, held_domains_fetched).
Proof. split; vm_compute; reflexivity. Defined.

Lemma upload_all_listed_witness :
  Forall term_record [revenue] ∧
  Forall (λ term, already_listed [revenue_listed] finance_ids term = true) [revenue] ∧
  ∃ w', upload_glossary_terms (small_catalog finance) contoso [revenue] revenue_held
          = (Ok tt, w') ∧
        sent (trace w') = sent (trace held_domains_fetched) ∧
        catalog w' = catalog held_domains_fetched.
Proof.
  assert (Forall term_record [revenue]) as Hrec
    by (repeat constructor; eexists; vm_compute; reflexivity).
  assert (Forall (λ term, already_listed [revenue_listed] finance_ids term = true) [revenue])
    as Hall by (repeat constructor; vm_compute; reflexivity).
  split; [exact Hrec|]. split; [exact Hall|].
  exact (upload_all_listed (small_catalog finance) contoso [revenue] revenue_held
           (Document ∅ (Some [revenue_listed])) held_terms_fetched [revenue_listed]
           finance_ids held_domains_fetched
           (proj1 held_fetches) eq_refl (proj2 held_fetches) term_snapshot_revenue Hrec Hall).
Defined.

Lemma upload_creates_in_order_witness :
  first_upload.1 = Ok tt ∧
  creates (trace first_upload.2) =
    creates (trace revenue_held) ++
    omap (create_for contoso finance_ids)
         (filter (λ term, already_listed [revenue_listed] finance_ids term = false)
                 [revenue; margin]).
Proof.
  assert (first_upload.1 = Ok tt) as Hok by (vm_compute; reflexivity).
  split; [exact Hok|].
  apply (upload_creates_in_order (small_catalog finance) contoso [revenue; margin] revenue_held
           (Document ∅ (Some [revenue_listed])) held_terms_fetched [revenue_listed]
           finance_ids held_domains_fetched first_upload.2
           (proj1 held_fetches) eq_refl (proj2 held_fetches) term_snapshot_revenue).
  rewrite <- Hok. apply surjective_pairing.
Defined.

Lemma delete_all_nothing_to_delete_witness :
  ∃ w', delete_all_glossary_term scripted contoso (World [Response 403 None] [])
          = (Raise (Exception permission_error), w') ∧
        sent (trace w') = sent [] ++ [GET (base_url contoso +:+ "/terms") (headers contoso)].
Proof.
  exact (proj1 (delete_all_nothing_to_delete scripted contoso (World [Response 403 None] [])
                  (Response 403 None) [] eq_refl) eq_refl).
Defined.

Lemma delete_all_stops_at_unreadable_term_witness :
  nameless !! "id" = Some "t-9" ∧
  nameless !! "name" = None ∧
  ∃ w2, delete_all_glossary_term scripted contoso
          (World [listing ([revenue_listed] ++ nameless :: [cost_listed]);
                  Response 204 None; Response 204 None; Response 204 None] [])
          = (Raise (KeyError "name"), w2) ∧
        sent (trace w2) =
          sent (trace (get_all_glossary_terms scripted contoso
                         (World [listing ([revenue_listed] ++ nameless :: [cost_listed]);
                                 Response 204 None; Response 204 None; Response 204 None] [])).2) ++
          ((λ id, DELETE (base_url contoso +:+ "/terms/" +:+ id) (headers contoso))
             <$> (["t-1"] ++ ["t-9"])).
Proof.
  assert (nameless !! "id" = Some "t-9") as Hid by (vm_compute; reflexivity).
  assert (nameless !! "name" = None) as Hname by (vm_compute; reflexivity).
  split; [exact Hid|]. split; [exact Hname|].
  refine (proj2 (delete_all_stops_at_unreadable_term scripted contoso
                   (World [listing ([revenue_listed] ++ nameless :: [cost_listed]);
                           Response 204 None; Response 204 None; Response 204 None] [])
                   (Document ∅ (Some ([revenue_listed] ++ nameless :: [cost_listed])))
                   _ [revenue_listed] nameless [cost_listed] ["t-1"] _ eq_refl _ _)
            "t-9" Hid Hname).
  - apply surjective_pairing.
  - repeat constructor.
  - repeat constructor; eexists; vm_compute; reflexivity.
Defined.

Lemma check_term_exists_extend_witness :
  __check_term_exists "Revenue" "Finance" [revenue_listed] finance_ids (World tt [])
    ≠ (Ok false, World tt []) ∧
  __check_term_exists "Revenue" "Finance" ([revenue_listed] ++ [margin_listed]) finance_ids
      (World tt []) =
    __check_term_exists "Revenue" "Finance" [revenue_listed] finance_ids (World tt []).
Proof.
  assert (__check_term_exists "Revenue" "Finance" [revenue_listed] finance_ids (World tt [])
            ≠ (Ok false, World tt [])) as Hne by (vm_compute; discriminate).
  split; [exact Hne|].
  exact (check_term_exists_extend "Revenue" "Finance" [revenue_listed] [margin_listed]
           finance_ids (World tt []) Hne).
Defined.

Lemma check_term_exists_same_id_witness :
  two_names !! "Finance" = Some "dom-123" ∧
  two_names !! "Treasury" = Some "dom-123" ∧
  __check_term_exists "Revenue" "Finance" [revenue_listed] two_names (World tt []) =
    __check_term_exists "Revenue" "Treasury" [revenue_listed] two_names (World tt []).
Proof.
  assert (two_names !! "Finance" = Some "dom-123") as H1 by (vm_compute; reflexivity).
  assert (two_names !! "Treasury" = Some "dom-123") as H2 by (vm_compute; reflexivity).
  split; [exact H1|]. split; [exact H2|].
  exact (check_term_exists_same_id "Revenue" "Finance" "Treasury" "dom-123" [revenue_listed]
           two_names two_names (World tt []) H1 H2).
Defined.
